(** * splid-mcp: tool-invocation layer and session manager

    A shallow embedding of [src/mcp.ts] (tool registry, name resolver,
    share-sum validation) and [src/server.ts] (the [SplidApi] adapter over
    the splid-js client, and the HTTP session map), followed by the
    properties the specification states about them.

    Conventions.
    - A JavaScript number is an IEEE-754 binary64 value: [spec_float] with
      [prec = 53] and [emax = 1024], and the arithmetic of [SpecFloat]
      (round to nearest, ties to even).
    - Values the code handles as [any] are elements of [value].
    - A plain object used as a dictionary ([Record<string, T>]) is a finite
      map of its own properties; a read that misses the own properties
      falls through to [Object.prototype], as in the language.
    - An [async] function is a computation in the monad [M]: it appends the
      calls it makes to the splid-js client to a log and either returns or
      throws. *)

From Stdlib Require Import ZArith QArith Qabs Lia Bool List.
From Stdlib Require Import SpecFloat.
From stdpp Require Import gmap strings list pretty.

Set Warnings "-register-all".
Local Open Scope Z_scope.

(** ** Numbers *)

Module Num.

Definition prec : Z := 53.
Definition emax : Z := 1024.

Definition number : Type := spec_float.

Definition add : number -> number -> number := SFadd prec emax.
Definition sub : number -> number -> number := SFsub prec emax.
Definition abs : number -> number := SFabs.
Definition ltb : number -> number -> bool := SFltb.
Definition leb : number -> number -> bool := SFleb.
(** [a > b] and [a >= b] are [b < a] and [b <= a]; all four are false on
    NaN. *)
Definition gtb (a b : number) : bool := SFltb b a.
Definition geb (a b : number) : bool := SFleb b a.

Definition valid (x : number) : bool := valid_binary prec emax x.

Definition is_nan (x : number) : bool :=
  match x with S754_nan => true | _ => false end.

(** Number literals of the source, as binary64 values. *)
Definition zero : number := S754_zero false.
Definition one : number := S754_finite false 4503599627370496 (-52).
(** [1e-6] *)
Definition lit_1e_6 : number := S754_finite false 4722366482869645 (-72).
Definition lit_20 : number := S754_finite false 5629499534213120 (-48).
Definition lit_100 : number := S754_finite false 7036874417766400 (-46).

(** The number of binary digits of a mantissa. *)
Abbreviation digits p := (Zpos (digits2_pos p)).

Definition is_zero (x : number) : bool :=
  match x with S754_zero _ => true | _ => false end.

(** The exact value of a finite number, as a rational (and 0 for the
    others, which are in no interval below). *)
Definition to_Q (x : number) : Q :=
  match x with
  | S754_finite s m e =>
      let z := cond_Zopp s (Zpos m) in
      if 0 <=? e then inject_Z (z * 2 ^ e) else Qmake z (2 ^ Z.to_pos (- e))
  | _ => 0%Q
  end.

(** [Number.isInteger] *)
Definition isInteger (x : number) : bool :=
  match x with
  | S754_zero _ => true
  | S754_finite _ m e => if 0 <=? e then true else Zpos m mod 2 ^ (- e) =? 0
  | _ => false
  end.

(** The interval of reals [[1 - 10^-6, 1 + 10^-6]]. *)
Definition band_lo : Q := 999999 # 1000000.
Definition band_hi : Q := 1000001 # 1000000.
Definition in_band (q : Q) : Prop := (band_lo <= q)%Q /\ (q <= band_hi)%Q.

(** What a running sum of positive numbers can be: [+0], a positive
    binary64 value, or [+Infinity]. *)
Definition nonneg_sum (x : number) : Prop :=
  match x with
  | S754_zero false | S754_infinity false => True
  | S754_finite false m e => bounded prec emax m e = true
  | _ => False
  end.

Definition positive_finite (x : number) : Prop :=
  match x with
  | S754_finite false m e => bounded prec emax m e = true
  | _ => False
  end.

End Num.

Export Num(number).

(** ** JavaScript values *)

Module JS.

(** Values of type [any]: what the splid-js client resolves with, and
    the arguments of a tool call. *)
Inductive value : Type :=
| VUndefined
| VNull
| VBool (b : bool)
| VNum (n : number)
| VStr (s : string)
| VArr (items : list value)
| VObj (fields : list (string * value)).

(** ToBoolean *)
Definition truthy (v : value) : bool :=
  match v with
  | VUndefined | VNull => false
  | VBool b => b
  | VNum n => negb (Num.is_zero n || Num.is_nan n)
  | VStr s => negb (bool_decide (s = ""))
  | VArr _ | VObj _ => true
  end.

Definition nullish (v : value) : bool :=
  match v with VUndefined | VNull => true | _ => false end.

(** [a ?? b] *)
Definition coalesce (a b : value) : value := if nullish a then b else a.

Fixpoint assoc (k : string) (fields : list (string * value)) : value :=
  match fields with
  | [] => VUndefined
  | (k', v) :: rest => if bool_decide (k' = k) then v else assoc k rest
  end.

(** [v.k] on a value that is neither [undefined] nor [null], for a key
    [k] that no prototype defines (all the keys the code reads:
    [result], [results], [name], [GlobalId], [objectId],
    [defaultCurrencyCode]). *)
Definition get (v : value) (k : string) : value :=
  match v with
  | VObj fields => assoc k fields
  | _ => VUndefined
  end.

(** An optional string of a validated input: [undefined] or a string. *)
Definition of_opt (o : option string) : value :=
  match o with Some s => VStr s | None => VUndefined end.

Definition truthy_opt (o : option string) : bool := truthy (of_opt o).

(** *** Plain objects used as dictionaries

    [const d: Record<string, T> = {}] has [Object.prototype] as its
    prototype. Reading [d[k]] returns the own property when there is
    one, and otherwise the member of [Object.prototype] of that name
    when there is one. *)
Definition ObjectPrototype : list string :=
  [ "constructor"; "__defineGetter__"; "__defineSetter__"; "hasOwnProperty";
    "__lookupGetter__"; "__lookupSetter__"; "isPrototypeOf";
    "propertyIsEnumerable"; "toString"; "valueOf"; "__proto__";
    "toLocaleString" ].

Definition inherited (k : string) : bool := bool_decide (k ∈ ObjectPrototype).

(** The result of a read [d[k]]: an own value, a member of
    [Object.prototype] (a function, or for [__proto__] the prototype
    object itself), or [undefined]. *)
Inductive slot (A : Type) : Type :=
| Own (a : A)
| Inherited (k : string)
| Undefined.
Arguments Own {A} a.
Arguments Inherited {A} k.
Arguments Undefined {A}.

Definition dict_get {A} (d : gmap string A) (k : string) : slot A :=
  match d !! k with
  | Some a => Own a
  | None => if inherited k then Inherited k else Undefined
  end.

(** [d[k] = v] for a string [v], or for [v] the value just read from
    [Object.prototype] under the same key: the setter of [__proto__]
    ignores the first and leaves the prototype as it is on the second;
    every other key becomes an own property. *)
Definition dict_set {A} (d : gmap string A) (k : string) (a : A) : gmap string A :=
  if bool_decide (k = "__proto__") then d else <[k := a]> d.

(** Truthiness of a read whose own values are strings. *)
Definition truthy_slot (r : slot string) : bool :=
  match r with
  | Own s => negb (bool_decide (s = ""))
  | Inherited _ => true
  | Undefined => false
  end.

(** Errors a computation can throw. *)
Inductive exn : Type :=
| Error (message : string)
| TypeError
| Rejected (reason : value).

End JS.

Export JS(value, slot, exn).
Import JS.

(** ** The splid-js client ([SplidClient]) and asynchronous computations *)

Module Client.

(** The two arguments of [splidClient.entry.expense.create]. *)
Record expense_options : Type := {
  o_groupId : value;
  o_title : string;
  o_payers : list (slot string * number);      (* [{ id, amount }] *)
  o_currencyCode : value
}.

Record expense_items : Type := {
  i_amount : number;
  i_profiteers : list (slot string * number)   (* [{ id, share }] *)
}.

(** The calls [server.ts] makes to the client. *)
Inductive call : Type :=
| GroupGetByInviteCode (code : string)
| GroupInfoGetOneByGroup (groupId : value)
| PersonGetByGroup (groupId : value)
| EntryGetByGroup (groupId : value) (offset limit : number)
| EntryExpenseCreate (options : expense_options) (items : expense_items)
| GetBalance (members entries groupInfo : value).

Inductive outcome : Type :=
| Resolve (v : value)
| Reject (e : exn).

(** The remote service: what a call answers, given the calls made so
    far. *)
Definition world : Type := list call -> call -> outcome.

End Client.

Export Client(call, world).
Import Client.

Inductive result (A : Type) : Type :=
| Ok (a : A)
| Throw (e : exn).
Arguments Ok {A} a.
Arguments Throw {A} e.

(** An [async] function: it reads the service, extends the log of calls and
    returns a value or throws. *)
Definition M (A : Type) : Type := world -> list call -> list call * result A.

#[export] Instance M_ret : MRet M := fun A a _ log => (log, Ok a).

#[export] Instance M_bind : MBind M := fun A B f m w log =>
  match m w log with
  | (log', Ok a) => f a w log'
  | (log', Throw e) => (log', Throw e)
  end.

Definition throw {A} (e : exn) : M A := fun _ log => (log, Throw e).

(** [await client.f(args)] *)
Definition perform (c : call) : M value := fun w log =>
  (log ++ [c], match w log c with Resolve v => Ok v | Reject e => Throw e end).

(** [v.k] where [v] may be [undefined] or [null]. *)
Definition prop (v : value) (k : string) : M value :=
  if nullish v then throw TypeError else mret (get v k).

(** ** [SplidApi] (mcp.ts) and its implementation (server.ts) *)

Record GroupRef : Type := { id : value; currencyCode : value }.

Record GroupSelector : Type := {
  groupId : option string;
  groupCode : option string;
  groupName : option string
}.

Record ExpenseInput : Type := {
  e_groupId : value;
  e_title : string;
  e_amount : number;
  e_currencyCode : value;
  e_payers : list (slot string * number);       (* [{ userId, amount }] *)
  e_profiteers : list (slot string * number)    (* [{ userId, share }] *)
}.

Record SplidApi : Type := {
  getDefaultGroup : M GroupRef;
  resolveGroup : GroupSelector -> M GroupRef;
  listMembers : value -> M value;
  createExpense : ExpenseInput -> M value;
  listEntries : value -> option number -> M value;
  getGroupSummary : value -> M value
}.

Module Server.
Section Server.

(** [process.env.CODE] *)
Variable CODE : string.

Definition getDefaultGroup : M GroupRef :=
  joined ← perform (GroupGetByInviteCode CODE);
  result ← prop joined "result";
  groupId ← prop result "objectId";
  info ← perform (GroupInfoGetOneByGroup groupId);
  cc ← prop info "defaultCurrencyCode";
  mret {| id := groupId; currencyCode := cc |}.

Definition resolveGroup (input : GroupSelector) : M GroupRef :=
  if truthy_opt (groupId input) then
    info ← perform (GroupInfoGetOneByGroup (of_opt (groupId input)));
    cc ← prop info "defaultCurrencyCode";
    mret {| id := of_opt (groupId input); currencyCode := cc |}
  else if truthy_opt (groupCode input) then
    joined ← perform (GroupGetByInviteCode (default "" (groupCode input)));
    result ← prop joined "result";
    groupId ← prop result "objectId";
    info ← perform (GroupInfoGetOneByGroup groupId);
    cc ← prop info "defaultCurrencyCode";
    mret {| id := groupId; currencyCode := cc |}
  else if truthy_opt (groupName input) then
    throw (Error "Group selection by name is not supported yet")
  else getDefaultGroup.

Definition listMembers (groupId : value) : M value :=
  perform (PersonGetByGroup groupId).

Definition createExpense (input : ExpenseInput) : M value :=
  let options := {| o_groupId := e_groupId input;
                    o_title := e_title input;
                    o_payers := e_payers input;
                    o_currencyCode := e_currencyCode input |} in
  let items := {| i_amount := e_amount input;
                  i_profiteers := e_profiteers input |} in
  perform (EntryExpenseCreate options items).

(** [input.limit ?? 20] *)
Definition listEntries (groupId : value) (limit : option number) : M value :=
  perform (EntryGetByGroup groupId Num.zero (default Num.lit_20 limit)).

Definition getGroupSummary (groupId : value) : M value :=
  members ← perform (PersonGetByGroup groupId);
  entries ← perform (EntryGetByGroup groupId Num.zero Num.lit_100);
  groupInfo ← perform (GroupInfoGetOneByGroup groupId);
  mresult ← prop members "result";
  mresults ← prop mresult "results";
  eresult ← prop entries "result";
  eresults ← prop eresult "results";
  info ← prop groupInfo "result";
  balance ← perform (GetBalance mresults eresults info);
  mret (VObj [("balance", balance)]).

Definition splidApi : SplidApi :=
  Build_SplidApi getDefaultGroup resolveGroup listMembers createExpense
    listEntries getGroupSummary.

End Server.
End Server.

(** ** The tool registry (mcp.ts) *)

Module Mcp.

(** [{ type: 'text', text }] *)
Inductive content_item : Type := TextContent (text : value).

(** What a tool handler returns; an absent [isError] is [false]. *)
Record CallToolResult : Type := { content : list content_item; isError : bool }.

Definition text_result (text : value) : CallToolResult :=
  {| content := [TextContent text]; isError := false |}.

Definition error_result (message : string) : CallToolResult :=
  {| content := [TextContent (VStr message)]; isError := true |}.

Record PayerLoose : Type := {
  p_userId : option string;
  p_name : option string;
  p_amount : number
}.

Record ProfiteerLoose : Type := {
  q_userId : option string;
  q_name : option string;
  q_share : number
}.

Record CreateExpenseArgs : Type := {
  ce_title : string;
  ce_amount : number;
  ce_currencyCode : option string;
  ce_payers : list PayerLoose;
  ce_profiteers : list ProfiteerLoose;
  ce_groupId : option string;
  ce_groupCode : option string;
  ce_groupName : option string
}.

Record ListEntriesArgs : Type := {
  le_limit : option number;
  le_groupId : option string;
  le_groupCode : option string;
  le_groupName : option string
}.

Record SummarySelectorArgs : Type := {
  gs_groupId : option string;
  gs_groupCode : option string;
  gs_groupName : option string
}.

(** *** The zod schemas, as parsers of the raw arguments *)

(** [z.string()] *)
Definition z_string (v : value) : option string :=
  match v with VStr s => Some s | _ => None end.

(** [z.string().optional()] *)
Definition z_string_optional (v : value) : option (option string) :=
  match v with
  | VUndefined => Some None
  | VStr s => Some (Some s)
  | _ => None
  end.

(** [z.number()]: a number other than NaN. *)
Definition z_number (v : value) : option number :=
  match v with
  | VNum n => if Num.is_nan n then None else Some n
  | _ => None
  end.

Definition check (b : bool) : option unit := if b then Some tt else None.

(** [z.number().positive()] *)
Definition z_positive (v : value) : option number :=
  n ← z_number v; _ ← check (Num.gtb n Num.zero); Some n.

(** [z.number().gt(0).lte(1)] *)
Definition z_share (v : value) : option number :=
  n ← z_number v; _ ← check (Num.gtb n Num.zero); _ ← check (Num.leb n Num.one); Some n.

(** [z.number().int().min(1).max(100)]: an integer that is neither
    below 1 nor above 100. *)
Definition z_limit (v : value) : option number :=
  n ← z_number v;
  _ ← check (Num.isInteger n);
  _ ← check (negb (Num.ltb n Num.one));
  _ ← check (negb (Num.gtb n Num.lit_100));
  Some n.

(** [z.array(item).min(1)] *)
Definition z_array_min1 {A} (item : value -> option A) (v : value) : option (list A) :=
  match v with
  | VArr items => l ← mapM item items; _ ← check (negb (bool_decide (l = [] :> list A))); Some l
  | _ => None
  end.

Definition is_object (v : value) : bool :=
  match v with VObj _ => true | _ => false end.

Definition PayerLoose_parse (v : value) : option PayerLoose :=
  _ ← check (is_object v);
  userId ← z_string_optional (get v "userId");
  name ← z_string_optional (get v "name");
  amount ← z_positive (get v "amount");
  _ ← check (truthy_opt userId || truthy_opt name);
  Some {| p_userId := userId; p_name := name; p_amount := amount |}.

Definition ProfiteerLoose_parse (v : value) : option ProfiteerLoose :=
  _ ← check (is_object v);
  userId ← z_string_optional (get v "userId");
  name ← z_string_optional (get v "name");
  share ← z_share (get v "share");
  _ ← check (truthy_opt userId || truthy_opt name);
  Some {| q_userId := userId; q_name := name; q_share := share |}.

Definition CreateExpenseInput_parse (v : value) : option CreateExpenseArgs :=
  _ ← check (is_object v);
  groupId ← z_string_optional (get v "groupId");
  groupCode ← z_string_optional (get v "groupCode");
  groupName ← z_string_optional (get v "groupName");
  title ← z_string (get v "title");
  amount ← z_positive (get v "amount");
  currencyCode ← z_string_optional (get v "currencyCode");
  payers ← z_array_min1 PayerLoose_parse (get v "payers");
  profiteers ← z_array_min1 ProfiteerLoose_parse (get v "profiteers");
  Some {| ce_title := title; ce_amount := amount; ce_currencyCode := currencyCode;
          ce_payers := payers; ce_profiteers := profiteers;
          ce_groupId := groupId; ce_groupCode := groupCode; ce_groupName := groupName |}.

(** [limit] is [z.number()...default(20)] made optional by [.partial()]:
    an absent [limit] stays [undefined]. *)
Definition ListEntriesInput_parse (v : value) : option ListEntriesArgs :=
  _ ← check (is_object v);
  groupId ← z_string_optional (get v "groupId");
  groupCode ← z_string_optional (get v "groupCode");
  groupName ← z_string_optional (get v "groupName");
  limit ← match get v "limit" with
          | VUndefined => Some None
          | l => Some <$> z_limit l
          end;
  Some {| le_limit := limit;
          le_groupId := groupId; le_groupCode := groupCode; le_groupName := groupName |}.

Definition SummarySelector_parse (v : value) : option SummarySelectorArgs :=
  _ ← check (is_object v);
  groupId ← z_string_optional (get v "groupId");
  groupCode ← z_string_optional (get v "groupCode");
  groupName ← z_string_optional (get v "groupName");
  Some {| gs_groupId := groupId; gs_groupCode := groupCode; gs_groupName := groupName |}.

(** What a tool call comes to: the arguments fail the input schema and
    the handler is not run, or the handler runs. *)
Inductive tool_outcome : Type :=
| InvalidParams
| Completed (r : result CallToolResult).

(** [server.registerTool(name, { inputSchema }, handler)], called with
    raw arguments. *)
Definition registerTool {Args} (inputSchema : value -> option Args)
    (handler : Args -> M CallToolResult) (raw : value)
    : world -> list call -> list call * tool_outcome :=
  fun w log =>
    match inputSchema raw with
    | None => (log, InvalidParams)
    | Some args => let '(log', r) := handler args w log in (log', Completed r)
    end.

Section Tools.

(** Built-ins of the language: [String.prototype.toLowerCase], the
    conversion of a number in a template literal, [JSON.stringify]. *)
Variable toLowerCase : string -> string.
Variable Number_toString : number -> string.
Variable JSON_stringify : value -> value.

(** [buildMcpServer(splid)] *)
Variable splid : SplidApi.

Definition health : M CallToolResult :=
  mret (text_result (VStr "ok")).

Definition whoami : M CallToolResult :=
  group ← getDefaultGroup splid;
  members ← listMembers splid (id group);
  mret (text_result (JSON_stringify
    (VObj [("group", VObj [("id", id group); ("currencyCode", currencyCode group)]);
           ("members", members)]))).

(** *** [resolveUserIdsByName] *)

(** [members.result?.results ?? members] *)
Definition member_list (members : value) : M value :=
  result ← prop members "result";
  mret (coalesce (if nullish result then VUndefined else get result "results") members).

(** The values [for (const m of list)] visits: the elements of an
    array, the characters of a string; nothing else the client can
    resolve with is iterable. *)
Definition iterate (iterable : value) : M (list value) :=
  match iterable with
  | VArr items => mret items
  | VStr s => mret ((fun c => VStr (String c "")) <$> String.list_ascii_of_string s)
  | _ => throw TypeError
  end.

(** One turn of the first loop. *)
Definition index_member (nameToGlobalId : gmap string string) (m : value)
    : gmap string string :=
  if truthy m then
    match get m "name", get m "GlobalId" with
    | VStr name, VStr GlobalId => dict_set nameToGlobalId (toLowerCase name) GlobalId
    | _, _ => nameToGlobalId
    end
  else nameToGlobalId.

Definition index_members (items : list value) : gmap string string :=
  fold_left index_member items ∅.

(** The second loop. *)
Fixpoint resolve_names (nameToGlobalId : gmap string string) (names : list string)
    (resolved : gmap string (slot string)) : M (gmap string (slot string)) :=
  match names with
  | [] => mret resolved
  | n :: rest =>
      let key := toLowerCase n in
      if truthy_slot (dict_get nameToGlobalId key)
      then resolve_names nameToGlobalId rest
             (dict_set resolved n (dict_get nameToGlobalId key))
      else throw (Error ("Unknown member name: " +:+ n))
  end.

Definition resolveUserIdsByName (groupId : value) (names : list string)
    : M (gmap string (slot string)) :=
  members ← listMembers splid groupId;
  members_list ← member_list members;
  items ← iterate members_list;
  resolve_names (index_members items) names ∅.

(** *** Group selection, as the three handlers below spell it out

    [(groupId || groupCode || groupName)
       ? await splid.resolveGroup({ groupId, groupCode, groupName })
       : await splid.getDefaultGroup()] *)
Definition select_group (groupId groupCode groupName : option string) : M GroupRef :=
  if truthy_opt groupId || truthy_opt groupCode || truthy_opt groupName
  then resolveGroup splid (Build_GroupSelector groupId groupCode groupName)
  else getDefaultGroup splid.

(** *** [createExpense] *)

(** [profiteers.reduce((s, p) => s + p.share, 0)] *)
Definition share_sum (profiteers : list ProfiteerLoose) : number :=
  fold_left (fun s p => Num.add s (q_share p)) profiteers Num.zero.

Definition epsilon : number := Num.lit_1e_6.

(** [Math.abs(sum - 1) > epsilon] *)
Definition share_sum_off (sum : number) : bool :=
  Num.gtb (Num.abs (Num.sub sum Num.one)) epsilon.

(** [l.filter(p => !p.userId && p.name).map(p => p.name as string)] *)
Definition missing_names {A} (userId name : A -> option string) (l : list A)
    : list string :=
  omap (fun p => if negb (truthy_opt (userId p)) && truthy_opt (name p)
                 then name p else None) l.

(** [Array.from(new Set(l))]: first occurrences, in order. *)
Definition dedupe (l : list string) : list string :=
  fold_left (fun seen x => if bool_decide (x ∈ seen) then seen else seen ++ [x]) l [].

(** [p.userId ?? nameToId[p.name as string]]; an absent name reads the
    key ["undefined"]. *)
Definition normalize_id (nameToId : gmap string (slot string))
    (userId name : option string) : slot string :=
  match userId with
  | Some s => Own s
  | None =>
      match dict_get nameToId (default "undefined" name) with
      | Own r => r
      | Inherited k => Inherited k
      | Undefined => Undefined
      end
  end.

(** The handler, from the share-sum check on. *)
Definition createExpense_checked (args : CreateExpenseArgs) (group : GroupRef)
    (currency : value) : M CallToolResult :=
  let missingPayerNames := missing_names p_userId p_name (ce_payers args) in
  let missingProfiteerNames := missing_names q_userId q_name (ce_profiteers args) in
  let namesToResolve := dedupe (missingPayerNames ++ missingProfiteerNames) in
  nameToId ← (if bool_decide (namesToResolve = [])
              then mret ∅
              else resolveUserIdsByName (id group) namesToResolve);
  let normalizedPayers :=
    (fun p => (normalize_id nameToId (p_userId p) (p_name p), p_amount p))
      <$> ce_payers args in
  let normalizedProfiteers :=
    (fun p => (normalize_id nameToId (q_userId p) (q_name p), q_share p))
      <$> ce_profiteers args in
  if existsb (fun p => negb (truthy_slot p.1)) normalizedPayers
     || existsb (fun p => negb (truthy_slot p.1)) normalizedProfiteers
  then mret (error_result "Failed to resolve all user names to IDs")
  else
    result ← createExpense splid
      {| e_groupId := id group;
         e_title := ce_title args;
         e_amount := ce_amount args;
         e_currencyCode := currency;
         e_payers := normalizedPayers;
         e_profiteers := normalizedProfiteers |};
    mret (text_result (JSON_stringify result)).

(** The handler, once the group is known. *)
Definition createExpense_in_group (args : CreateExpenseArgs) (group : GroupRef)
    : M CallToolResult :=
  let currency :=
    coalesce (coalesce (of_opt (ce_currencyCode args)) (currencyCode group)) (VStr "EUR") in
  let sum := share_sum (ce_profiteers args) in
  if share_sum_off sum
  then mret (error_result ("Shares must sum to 1. Current sum: " +:+ Number_toString sum))
  else createExpense_checked args group currency.

Definition createExpense_handler (args : CreateExpenseArgs) : M CallToolResult :=
  group ← select_group (ce_groupId args) (ce_groupCode args) (ce_groupName args);
  createExpense_in_group args group.

(** *** [listEntries] *)

Definition listEntries_in_group (args : ListEntriesArgs) (group : GroupRef)
    : M CallToolResult :=
  entries ← listEntries splid (id group) (Some (default Num.lit_20 (le_limit args)));
  mret (text_result (JSON_stringify entries)).

Definition listEntries_handler (args : ListEntriesArgs) : M CallToolResult :=
  group ← select_group (le_groupId args) (le_groupCode args) (le_groupName args);
  listEntries_in_group args group.

(** *** [getGroupSummary] *)

Definition getGroupSummary_in_group (group : GroupRef) : M CallToolResult :=
  summary ← getGroupSummary splid (id group);
  mret (text_result (JSON_stringify summary)).

Definition getGroupSummary_handler (args : SummarySelectorArgs) : M CallToolResult :=
  group ← select_group (gs_groupId args) (gs_groupCode args) (gs_groupName args);
  getGroupSummary_in_group group.

(** *** The registered tools, called with raw arguments *)

Definition tool_createExpense := registerTool CreateExpenseInput_parse createExpense_handler.
Definition tool_listEntries := registerTool ListEntriesInput_parse listEntries_handler.
Definition tool_getGroupSummary := registerTool SummarySelector_parse getGroupSummary_handler.

End Tools.

End Mcp.

(** ** The HTTP endpoints and the session map (server.ts) *)

Module Session.

(** What [randomUUID()] returns: 36 characters, lower-case hexadecimal
    digits in groups of 8, 4, 4, 4 and 12 separated by dashes. *)
Definition is_hex (c : Ascii.ascii) : bool :=
  let n := Ascii.nat_of_ascii c in
  ((48 <=? n)%nat && (n <=? 57)%nat) || ((97 <=? n)%nat && (n <=? 102)%nat).

Fixpoint has_shape (shape : list bool) (s : string) : bool :=
  match shape, s with
  | [], EmptyString => true
  | hex :: shape', String c s' =>
      (if hex then is_hex c else (Ascii.nat_of_ascii c =? 45)%nat) && has_shape shape' s'
  | _, _ => false
  end.

Definition uuid_shape : list bool :=
  replicate 8 true ++ [false] ++ replicate 4 true ++ [false] ++ replicate 4 true
    ++ [false] ++ replicate 4 true ++ [false] ++ replicate 12 true.

Definition is_uuid (s : string) : bool := has_shape uuid_shape s.

Record uuid : Type := { uuid_str : string; uuid_ok : is_uuid uuid_str = true }.

(** A [StreamableHTTPServerTransport]; [sessionId] is set when the
    transport initializes its session. *)
Record transport : Type := { sessionId : option string }.

(** A request: [req.headers['mcp-session-id']] and [req.body]. *)
Record request : Type := { session_header : option string; body : value }.

Inductive response : Type :=
| Json (status : Z) (payload : value)   (* [res.status(s).json(payload)] *)
| Send (status : Z) (text : string)     (* [res.status(s).send(text)] *)
| HandledBy (t : transport)             (* [t.handleRequest(req, res, ...)] answers *)
| Uncaught (e : exn).                   (* the handler's promise rejects *)

Definition lit_minus_32000 : number := S754_finite true 8796093022208000 (-38).

Definition no_valid_session : value :=
  VObj [("jsonrpc", VStr "2.0");
        ("error", VObj [("code", VNum lit_minus_32000);
                        ("message", VStr "Bad Request: No valid session ID provided")]);
        ("id", VNull)].

Definition internal_error : value := VObj [("error", VStr "Internal error")].

(** [app.get('/health', ...)] *)
Definition get_health : response := Json 200 (VObj [("ok", VBool true)]).

Definition is_client_error (r : response) : bool :=
  match r with
  | Json s _ | Send s _ => (400 <=? s) && (s <? 500)
  | _ => false
  end.

(** The two answers that reject a session identifier. *)
Definition invalid_session (r : response) : Prop :=
  r = Json 400 no_valid_session \/ r = Send 400 "Invalid or missing session ID".

Section Endpoints.

(** From the MCP SDK: whether a body is an initialize request, and
    whether a new transport given an initialize request initializes its
    session (it answers by itself, without a session, when it rejects
    the request's headers). *)
Variable isInitializeRequest : value -> bool.
Variable initializes : request -> bool.

(** [app.post('/mcp', ...)]; [fresh] is what [randomUUID()] returns if
    it is called. *)
Definition post_mcp (transports : gmap string transport) (req : request) (fresh : uuid)
    : gmap string transport * response :=
  if truthy_opt (session_header req) then
    match dict_get transports (default "" (session_header req)) with
    | Undefined => (transports, Json 400 no_valid_session)
    | Own existing => (transports, HandledBy existing)
    | Inherited _ =>
        (* [existing.handleRequest] is not a function: the [TypeError]
           is caught *)
        (transports, Json 500 internal_error)
    end
  else if negb (isInitializeRequest (body req)) then
    (transports, Json 400 no_valid_session)
  else if initializes req then
    let transport := {| sessionId := Some (uuid_str fresh) |} in
    (<[uuid_str fresh := transport]> transports, HandledBy transport)
  else
    (transports, HandledBy {| sessionId := None |}).

(** [app.get('/mcp', ...)] and [app.delete('/mcp', ...)] *)
Definition get_or_delete_mcp (transports : gmap string transport) (req : request)
    : response :=
  if negb (truthy_opt (session_header req)) then Send 400 "Invalid or missing session ID"
  else
    match dict_get transports (default "" (session_header req)) with
    | Undefined => Send 400 "Invalid or missing session ID"
    | Own t => HandledBy t
    | Inherited _ => Uncaught TypeError
    end.

(** [transport.onclose] *)
Definition onclose (transports : gmap string transport) (t : transport)
    : gmap string transport :=
  match sessionId t with
  | Some sid =>
      if truthy (VStr sid)
         && match dict_get transports sid with Undefined => false | _ => true end
      then delete sid transports
      else transports
  | None => transports
  end.

Inductive event : Type :=
| PostMcp (req : request) (fresh : uuid)
| GetMcp (req : request)
| DeleteMcp (req : request)
| ChannelClosed (t : transport).

(** The identifier a request bears. *)
Definition bears (ev : event) (sid : string) : Prop :=
  match ev with
  | PostMcp req _ | GetMcp req | DeleteMcp req => session_header req = Some sid
  | ChannelClosed _ => False
  end.

Definition step (transports : gmap string transport) (ev : event)
    : gmap string transport * option response :=
  match ev with
  | PostMcp req fresh => let '(t', r) := post_mcp transports req fresh in (t', Some r)
  | GetMcp req | DeleteMcp req => (transports, Some (get_or_delete_mcp transports req))
  | ChannelClosed t => (onclose transports t, None)
  end.

(** The events of a run, each with the answer it got. *)
Fixpoint run (transports : gmap string transport) (evs : list event)
    : gmap string transport * list (event * option response) :=
  match evs with
  | [] => (transports, [])
  | ev :: rest =>
      let '(t', r) := step transports ev in
      let '(t'', rs) := run t' rest in
      (t'', (ev, r) :: rs)
  end.

End Endpoints.

End Session.

(** ** Instances for the examples

    A lower-casing of ASCII letters, a printer of numbers in exact binary
    form, a serializer, and a service with one group of two members. *)

Module Example.

Definition lower_ascii (c : Ascii.ascii) : Ascii.ascii :=
  let n := Ascii.nat_of_ascii c in
  if (65 <=? n)%nat && (n <=? 90)%nat then Ascii.ascii_of_nat (n + 32) else c.

Fixpoint ascii_lower (s : string) : string :=
  match s with
  | EmptyString => EmptyString
  | String c rest => String (lower_ascii c) (ascii_lower rest)
  end.

Definition number_repr (n : number) : string :=
  match n with
  | S754_zero _ => "0"
  | S754_infinity s => if s then "-Infinity" else "Infinity"
  | S754_nan => "NaN"
  | S754_finite s m e => (if s then "-" else "") +:+ pretty (Zpos m) +:+ "p" +:+ pretty e
  end.

Fixpoint json_text (v : value) : string :=
  match v with
  | VUndefined | VNull => "null"
  | VBool b => if b then "true" else "false"
  | VNum n => number_repr n
  | VStr s => "'" +:+ s +:+ "'"
  | VArr items => "[" +:+ String.concat "," (List.map json_text items) +:+ "]"
  | VObj fields =>
      "{" +:+ String.concat ","
                (List.map (fun kv : string * value => kv.1 +:+ ":" +:+ json_text kv.2) fields)
          +:+ "}"
  end.

Definition stringify (v : value) : value :=
  match v with VUndefined => VUndefined | _ => VStr (json_text v) end.

Definition alice : value := VObj [("name", VStr "Alice"); ("GlobalId", VStr "id-alice")].
Definition bob : value := VObj [("name", VStr "Bob"); ("GlobalId", VStr "id-bob")].

Definition service : world := fun _ c =>
  match c with
  | GroupGetByInviteCode _ => Resolve (VObj [("result", VObj [("objectId", VStr "g1")])])
  | GroupInfoGetOneByGroup _ => Resolve (VObj [("defaultCurrencyCode", VStr "EUR")])
  | PersonGetByGroup _ => Resolve (VObj [("result", VObj [("results", VArr [alice; bob])])])
  | EntryGetByGroup _ _ _ => Resolve (VObj [("result", VObj [("results", VArr [])])])
  | EntryExpenseCreate _ _ => Resolve (VObj [("created", VBool true)])
  | GetBalance _ _ _ => Resolve (VObj [])
  end.

Definition a_uuid : string := "123e4567-e89b-42d3-a456-426614174000".

(** Number literals of the examples: 12.5, 0.6, 0.4, 0.5, 0.9, 150 and
    0.999999. *)
Definition lit_12_5 : number := S754_finite false 7036874417766400 (-49).
Definition lit_0_6 : number := S754_finite false 5404319552844595 (-53).
Definition lit_0_4 : number := S754_finite false 7205759403792794 (-54).
Definition lit_0_5 : number := S754_finite false 4503599627370496 (-53).
Definition lit_0_9 : number := S754_finite false 8106479329266893 (-53).
Definition lit_150 : number := S754_finite false 5277655813324800 (-45).
Definition lit_0_999999 : number := S754_finite false 9007190247541737 (-53).

(** The arguments of a [createExpense] call that names its parties. *)
Definition raw_by_names (title : string) : value :=
  VObj [("title", VStr title);
        ("amount", VNum lit_12_5);
        ("payers", VArr [VObj [("name", VStr "Alice"); ("amount", VNum lit_12_5)]]);
        ("profiteers",
         VArr [VObj [("name", VStr "Bob"); ("share", VNum lit_0_6)];
               VObj [("name", VStr "Alice"); ("share", VNum lit_0_4)]])].


Definition the_uuid : Session.uuid :=
  {| Session.uuid_str := a_uuid; Session.uuid_ok := eq_refl |}.

End Example.

(** ** Further sample data *)

Module Sample.

(** The binary64 value of an integer. *)
Definition number_of_Z (k : Z) : number :=
  binary_normalize Num.prec Num.emax k 0 false.

(** Whether an integer, as a [limit], passes [z_limit] and has the
    integer as its exact value. *)
Definition limit_accepted (k : Z) : bool :=
  match Mcp.z_limit (VNum (number_of_Z k)) with
  | Some n => Qeq_bool (Num.to_Q n) (inject_Z k)
  | None => false
  end.

(** A service like [Example.service] that answers the listing of the
    members with the bare array of the given members. *)
Definition service_listing (members : list value) : world := fun _ c =>
  match c with
  | PersonGetByGroup _ => Resolve (VArr members)
  | _ => Example.service [] c
  end.

(** A member listed under the name of [Example.alice], in capitals. *)
Definition alice_before : value :=
  VObj [("name", VStr "ALICE"); ("GlobalId", VStr "id-old")].

Definition the_group : GroupRef := {| id := VStr "g1"; currencyCode := VStr "EUR" |}.

(** The members as [Example.service] lists them. *)
Definition the_listing : value :=
  VObj [("result", VObj [("results", VArr [Example.alice; Example.bob])])].

(** The arguments of [Example.raw_by_names "Dinner"], once parsed. *)
Definition args_by_names : Mcp.CreateExpenseArgs :=
  {| Mcp.ce_title := "Dinner";
     Mcp.ce_amount := Example.lit_12_5;
     Mcp.ce_currencyCode := None;
     Mcp.ce_payers :=
       [{| Mcp.p_userId := None; Mcp.p_name := Some "Alice";
           Mcp.p_amount := Example.lit_12_5 |}];
     Mcp.ce_profiteers :=
       [{| Mcp.q_userId := None; Mcp.q_name := Some "Bob"; Mcp.q_share := Example.lit_0_6 |};
        {| Mcp.q_userId := None; Mcp.q_name := Some "Alice";
           Mcp.q_share := Example.lit_0_4 |}];
     Mcp.ce_groupId := None; Mcp.ce_groupCode := None; Mcp.ce_groupName := None |}.

(** The same expense, with the identifiers of the parties given. *)
Definition args_by_ids : Mcp.CreateExpenseArgs :=
  {| Mcp.ce_title := "Dinner";
     Mcp.ce_amount := Example.lit_12_5;
     Mcp.ce_currencyCode := None;
     Mcp.ce_payers :=
       [{| Mcp.p_userId := Some "u1"; Mcp.p_name := Some "Alice";
           Mcp.p_amount := Example.lit_12_5 |}];
     Mcp.ce_profiteers :=
       [{| Mcp.q_userId := Some "u2"; Mcp.q_name := None; Mcp.q_share := Example.lit_0_6 |};
        {| Mcp.q_userId := Some "u1"; Mcp.q_name := None; Mcp.q_share := Example.lit_0_4 |}];
     Mcp.ce_groupId := None; Mcp.ce_groupCode := None; Mcp.ce_groupName := None |}.

(** The same expense, with an empty identifier for the payer. *)
Definition args_empty_userId : Mcp.CreateExpenseArgs :=
  {| Mcp.ce_title := "Dinner";
     Mcp.ce_amount := Example.lit_12_5;
     Mcp.ce_currencyCode := None;
     Mcp.ce_payers :=
       [{| Mcp.p_userId := Some ""; Mcp.p_name := Some "Alice";
           Mcp.p_amount := Example.lit_12_5 |}];
     Mcp.ce_profiteers :=
       [{| Mcp.q_userId := None; Mcp.q_name := Some "Bob"; Mcp.q_share := Example.lit_0_6 |};
        {| Mcp.q_userId := None; Mcp.q_name := Some "Alice";
           Mcp.q_share := Example.lit_0_4 |}];
     Mcp.ce_groupId := None; Mcp.ce_groupCode := None; Mcp.ce_groupName := None |}.

(** An initialize request without session identifier. *)
Definition initialize_request : Session.request :=
  {| Session.session_header := None; Session.body := VObj [("method", VStr "initialize")] |}.

End Sample.

(** * Properties *)

(** ** Binary64 arithmetic *)

Module NumFacts.
Import Num.

Lemma digits2_size p : digits2_pos p = Pos.size p.
Proof. induction p; simpl; congruence. Qed.

Lemma digits_hi p : Zpos p < 2 ^ Zpos (digits2_pos p).
Proof.
  rewrite digits2_size. pose proof (Pos.size_gt p) as H.
  apply Pos2Z.pos_lt_pos in H. rewrite Pos2Z.inj_pow in H. exact H.
Qed.

Lemma digits_lo p : 2 ^ (Zpos (digits2_pos p) - 1) <= Zpos p.
Proof.
  rewrite digits2_size. pose proof (Pos.size_le p) as H.
  apply Pos2Z.pos_le_pos in H. rewrite Pos2Z.inj_pow in H.
  replace (Zpos (Pos.size p)) with (Z.succ (Zpos (Pos.size p) - 1)) in H by lia.
  rewrite Z.pow_succ_r in H by lia. lia.
Qed.

Lemma digits_unique p k : 2 ^ (k - 1) <= Zpos p < 2 ^ k -> Zpos (digits2_pos p) = k.
Proof.
  intros [Hlo Hhi]. pose proof (digits_lo p). pose proof (digits_hi p).
  destruct (Z.lt_trichotomy (Zpos (digits2_pos p)) k) as [Hlt | [Heq | Hgt]]; [ | exact Heq | ].
  - assert (2 ^ Zpos (digits2_pos p) <= 2 ^ (k - 1)) by (apply Z.pow_le_mono_r; lia). lia.
  - assert (0 <= k \/ k < 0) as [Hk | Hk] by lia.
    + assert (2 ^ k <= 2 ^ (Zpos (digits2_pos p) - 1)) by (apply Z.pow_le_mono_r; lia). lia.
    + rewrite (Z.pow_neg_r 2 k) in Hhi by lia. lia.
Qed.

Lemma iter_xO m d : Zpos (Pos.iter xO m d) = Zpos m * 2 ^ Zpos d.
Proof.
  revert m. induction d using Pos.peano_ind; intros m.
  - simpl. lia.
  - rewrite Pos.iter_succ. rewrite Pos2Z.inj_xO, IHd, Pos2Z.inj_succ, Z.pow_succ_r by lia. lia.
Qed.

Lemma digits_shl m d :
  Zpos (digits2_pos (Pos.iter xO m d)) = Zpos (digits2_pos m) + Zpos d.
Proof.
  induction d using Pos.peano_ind.
  - simpl. lia.
  - rewrite Pos.iter_succ. simpl. lia.
Qed.

Lemma fexp_eq e : fexp prec emax e = Z.max (e - 53) (-1074).
Proof. reflexivity. Qed.

Lemma shl_align_spec mx ex ex' :
  exists m', shl_align mx ex ex' = (m', Z.min ex ex')
    /\ Zpos m' = Zpos mx * 2 ^ (ex - Z.min ex ex')
    /\ digits m' = digits mx + (ex - Z.min ex ex').
Proof.
  unfold shl_align. destruct (ex' - ex) as [ | d | d] eqn:Hd.
  - exists mx. replace (Z.min ex ex') with ex by lia.
    rewrite Z.sub_diag. simpl. split; [reflexivity | lia].
  - exists mx. replace (Z.min ex ex') with ex by lia.
    rewrite Z.sub_diag. simpl. split; [reflexivity | lia].
  - exists (Pos.iter xO mx d). replace (Z.min ex ex') with ex' by lia.
    replace (ex - ex') with (Zpos d) by lia.
    split; [reflexivity | ]. split; [apply iter_xO | apply digits_shl].
Qed.

Lemma shr_1_m mrs : 0 <= shr_m mrs -> shr_m (shr_1 mrs) = shr_m mrs / 2.
Proof.
  destruct mrs as [m r s]. simpl. intros Hm.
  destruct m as [ | [p | p | ] | p]; simpl; try reflexivity; try lia.
  - rewrite Pos2Z.inj_xI. apply (Z.div_unique _ 2 _ 1); lia.
  - rewrite Pos2Z.inj_xO. apply (Z.div_unique _ 2 _ 0); lia.
Qed.

Lemma pow2_pos n : 0 < 2 ^ Zpos n.
Proof. apply Z.pow_pos_nonneg; lia. Qed.

Lemma iter_shr_m n mrs :
  0 <= shr_m mrs -> shr_m (SpecFloat.iter_pos shr_1 n mrs) = shr_m mrs / 2 ^ Zpos n.
Proof.
  revert mrs. induction n as [n IH | n IH | ]; intros mrs Hm; simpl SpecFloat.iter_pos.
  - pose proof (pow2_pos n) as Hp.
    assert (H1 : 0 <= shr_m (shr_1 mrs)).
    { rewrite shr_1_m by exact Hm. apply Z.div_pos; lia. }
    assert (H2 : 0 <= shr_m (SpecFloat.iter_pos shr_1 n (shr_1 mrs))).
    { rewrite IH by exact H1. apply Z.div_pos; [exact H1 | exact Hp]. }
    rewrite IH by exact H2. rewrite IH by exact H1. rewrite shr_1_m by exact Hm.
    rewrite !Z.div_div by lia.
    f_equal. replace (Zpos n~1) with (1 + Zpos n + Zpos n) by lia.
    rewrite !Z.pow_add_r by lia. lia.
  - pose proof (pow2_pos n) as Hp.
    assert (H2 : 0 <= shr_m (SpecFloat.iter_pos shr_1 n mrs)).
    { rewrite IH by exact Hm. apply Z.div_pos; [exact Hm | exact Hp]. }
    rewrite IH by exact H2. rewrite IH by exact Hm.
    rewrite Z.div_div by lia.
    f_equal. replace (Zpos n~0) with (Zpos n + Zpos n) by lia.
    rewrite Z.pow_add_r by lia. reflexivity.
  - rewrite shr_1_m by exact Hm. reflexivity.
Qed.

Lemma shr_record_of_loc_m m l : shr_m (shr_record_of_loc m l) = m.
Proof. destruct l as [ | []]; reflexivity. Qed.

Lemma round_nearest_even_range m l :
  round_nearest_even m l = m \/ round_nearest_even m l = m + 1.
Proof.
  destruct l as [ | []]; simpl; auto. destruct (Z.even m); auto.
Qed.

(** A canonical mantissa at exponent [e] is returned unchanged. *)
Lemma binary_round_aux_exact s m e :
  fexp prec emax (digits m + e) = e ->
  binary_round_aux prec emax s (Zpos m) e loc_Exact
  = if e <=? emax - prec then S754_finite s m e else S754_infinity s.
Proof.
  intros Hc. unfold binary_round_aux, shr_fexp. simpl Zdigits2.
  rewrite Hc, Z.sub_diag.
  cbn [shr shr_record_of_loc shr_m loc_of_shr_record round_nearest_even Zdigits2].
  rewrite Hc, Z.sub_diag. reflexivity.
Qed.

Lemma shr_fexp_normal m e l :
  53 <= digits m -> -1074 <= digits m + e - 53 ->
  exists mrs, shr_fexp prec emax (Zpos m) e l = (mrs, digits m + e - 53)
    /\ 2 ^ 52 <= shr_m mrs < 2 ^ 53.
Proof.
  intros Hd He. unfold shr_fexp. cbn [Zdigits2]. rewrite fexp_eq.
  pose proof (digits_lo m) as Hlo. pose proof (digits_hi m) as Hhi.
  replace (Z.max (digits m + e - 53) (-1074) - e) with (digits m - 53) by lia.
  destruct (digits m - 53) as [ | n | n] eqn:Hn; [ | | lia].
  - cbn [shr]. eexists. split; [f_equal; lia | ].
    rewrite shr_record_of_loc_m. replace (digits m) with 53 in Hlo, Hhi by lia.
    exact (conj Hlo Hhi).
  - cbn [shr]. eexists. split; [f_equal; lia | ].
    rewrite iter_shr_m by (rewrite shr_record_of_loc_m; lia).
    rewrite shr_record_of_loc_m. pose proof (pow2_pos n) as Hp.
    replace (digits m) with (53 + Zpos n) in Hhi by lia.
    replace (digits m - 1) with (52 + Zpos n) in Hlo by lia.
    rewrite Z.pow_add_r in Hlo, Hhi by lia.
    split.
    + apply Z.div_le_lower_bound; lia.
    + apply Z.div_lt_upper_bound; lia.
Qed.

Lemma binary_round_aux_normal s m e l :
  53 <= digits m -> -1074 <= digits m + e - 53 ->
  exists m' e',
    binary_round_aux prec emax s (Zpos m) e l
    = (if e' <=? emax - prec then S754_finite s m' e' else S754_infinity s)
    /\ digits m' = 53
    /\ (e' = digits m + e - 53 \/ e' = digits m + e - 52).
Proof.
  intros Hd He. unfold binary_round_aux.
  destruct (shr_fexp_normal m e l Hd He) as (mrs & -> & Hlo & Hhi).
  set (e2 := digits m + e - 53) in *.
  destruct (round_nearest_even_range (shr_m mrs) (loc_of_shr_record mrs)) as [Hr | Hr];
    rewrite Hr; clear Hr.
  - destruct (shr_m mrs) as [ | p | p] eqn:Hp; [lia | | lia].
    assert (Hdp : digits p = 53) by (apply digits_unique; simpl; lia).
    unfold shr_fexp. cbn [Zdigits2]. rewrite Hdp, fexp_eq.
    replace (Z.max (53 + e2 - 53) (-1074) - e2) with 0 by lia.
    cbn [shr shr_record_of_loc shr_m]. exists p, e2. auto.
  - destruct (shr_m mrs + 1) as [ | p | p] eqn:Hp; [lia | | lia].
    destruct (Z.eq_dec (Zpos p) (2 ^ 53)) as [Heq | Hne].
    + assert (Hdp : digits p = 54) by (apply digits_unique; rewrite Heq; simpl; lia).
      unfold shr_fexp. cbn [Zdigits2]. rewrite Hdp, fexp_eq.
      replace (Z.max (54 + e2 - 53) (-1074) - e2) with 1 by lia.
      cbn [shr shr_record_of_loc SpecFloat.iter_pos].
      assert (Hm : shr_m (shr_1 {| shr_m := Zpos p; shr_r := false; shr_s := false |}) = 2 ^ 52).
      { rewrite shr_1_m by (simpl; lia). cbn [shr_m]. rewrite Heq. reflexivity. }
      rewrite Hm. change (2 ^ 52) with (Zpos (2 ^ 52)).
      exists (2 ^ 52)%positive, (e2 + 1). split; [reflexivity | ].
      split; [reflexivity | right; lia].
    + assert (Hdp : digits p = 53) by (apply digits_unique; simpl; lia).
      unfold shr_fexp. cbn [Zdigits2]. rewrite Hdp, fexp_eq.
      replace (Z.max (53 + e2 - 53) (-1074) - e2) with 0 by lia.
      cbn [shr shr_record_of_loc shr_m]. exists p, e2. auto.
Qed.

(** The shape of a rounded sum: [binary_round] at an exponent that is not
    below [emin]. *)
Lemma binary_round_shape s m e :
  -1074 <= e ->
  exists m' e',
    binary_round prec emax s m e
    = (if e' <=? emax - prec then S754_finite s m' e' else S754_infinity s)
    /\ fexp prec emax (digits m' + e') = e'
    /\ fexp prec emax (digits m + e) <= e'
    /\ (fexp prec emax (digits m + e) <= e ->
        e' = fexp prec emax (digits m + e) /\ Zpos m' = Zpos m * 2 ^ (e - e')).
Proof.
  intros He. unfold binary_round.
  destruct (shl_align_spec m e (fexp prec emax (digits m + e))) as (m1 & -> & Hm1 & Hd1).
  set (fe := fexp prec emax (digits m + e)) in *.
  destruct (Z.le_gt_cases fe e) as [Hle | Hgt].
  - replace (Z.min e fe) with fe in * by lia.
    rewrite binary_round_aux_exact by (rewrite Hd1; unfold fe; f_equal; lia).
    exists m1, fe. split; [reflexivity | ].
    split; [rewrite Hd1; unfold fe; f_equal; lia | ].
    split; [lia | auto].
  - replace (Z.min e fe) with e in * by lia.
    rewrite Z.sub_diag in Hm1, Hd1.
    assert (Hfe : fe = digits m + e - 53) by (unfold fe in *; rewrite fexp_eq in *; lia).
    assert (Hdm : digits m1 = digits m) by lia.
    destruct (binary_round_aux_normal s m1 e loc_Exact) as (m' & e' & -> & Hd' & He'); [lia | lia | ].
    exists m', e'. split; [reflexivity | ].
    split; [rewrite Hd', fexp_eq; lia | ].
    split; [lia | lia].
Qed.

Lemma digits_ge p k : 2 ^ (k - 1) <= Zpos p -> k <= digits p.
Proof.
  intros H. pose proof (digits_hi p) as Hhi.
  destruct (Z.le_gt_cases k (digits p)) as [Hle | Hgt]; [exact Hle | ].
  assert (2 ^ digits p <= 2 ^ (k - 1)) by (apply Z.pow_le_mono_r; lia). lia.
Qed.

Lemma digits_le p k : 0 <= k -> Zpos p < 2 ^ k -> digits p <= k.
Proof.
  intros Hk H. pose proof (digits_lo p) as Hlo.
  destruct (Z.le_gt_cases (digits p) k) as [Hle | Hgt]; [exact Hle | ].
  assert (2 ^ k <= 2 ^ (digits p - 1)) by (apply Z.pow_le_mono_r; lia). lia.
Qed.

Lemma bounded_inv m e :
  bounded prec emax m e = true ->
  -1074 <= e <= 971 /\ digits m <= 53 /\ (-1074 < e -> digits m = 53).
Proof.
  unfold bounded, canonical_mantissa. rewrite andb_true_iff, Z.eqb_eq, Z.leb_le, fexp_eq.
  change (emax - prec) with 971. lia.
Qed.

Lemma sub_one_finite sx mx ex :
  sub (S754_finite sx mx ex) one
  = binary_normalize prec emax
      (cond_Zopp sx (Zpos mx * 2 ^ (ex - Z.min ex (-52))) - 2 ^ (- Z.min ex (-52)))
      (Z.min ex (-52)) false.
Proof.
  unfold sub, SFsub, one. cbv zeta.
  destruct (shl_align_spec mx ex (Z.min ex (-52))) as (m1 & E1 & Hm1 & _).
  destruct (shl_align_spec 4503599627370496 (-52) (Z.min ex (-52))) as (m2 & E2 & Hm2 & _).
  rewrite E1, E2. cbn [fst cond_Zopp]. rewrite Hm1, Hm2.
  replace (Z.min ex (Z.min ex (-52))) with (Z.min ex (-52)) by lia.
  replace (Z.min (-52) (Z.min ex (-52))) with (Z.min ex (-52)) by lia.
  f_equal. f_equal.
  change (Zpos 4503599627370496) with (2 ^ 52).
  rewrite <- Z.pow_add_r by lia. f_equal. lia.
Qed.

Lemma gtb_eps_rounded s m e :
  -1074 <= e -> 53 - 72 < digits m + e ->
  gtb (abs (binary_round prec emax s m e)) lit_1e_6 = true.
Proof.
  intros He Hd.
  destruct (binary_round_shape s m e He) as (m' & e' & -> & _ & Hfe & _).
  rewrite fexp_eq in Hfe.
  destruct (e' <=? emax - prec); [ | reflexivity].
  unfold gtb, abs, SFabs, SFltb, SFcompare, lit_1e_6.
  replace (-72 ?= e') with Lt; [reflexivity | ].
  symmetry. apply Z.compare_lt_iff. lia.
Qed.

(** Far from one: a difference of magnitude at least one half exceeds the
    tolerance after rounding. *)
Lemma gtb_eps_far z e :
  -1074 <= e <= -1 -> 2 ^ (- e - 1) <= Z.abs z ->
  gtb (abs (binary_normalize prec emax z e false)) lit_1e_6 = true.
Proof.
  intros He Hz. assert (0 < 2 ^ (- e - 1)) by (apply Z.pow_pos_nonneg; lia).
  destruct z as [ | p | p]; cbn [binary_normalize Z.abs] in *; [lia | | ];
    apply gtb_eps_rounded; try lia;
    assert (- e <= digits p) by (apply digits_ge; exact Hz); lia.
Qed.

Lemma gtb_eps_finite s m e :
  gtb (abs (S754_finite s m e)) lit_1e_6
  = match -72 ?= e with
    | Lt => true
    | Gt => false
    | Eq => 4722366482869645 <? Zpos m
    end.
Proof.
  unfold gtb, abs, SFabs, SFltb, SFcompare, lit_1e_6, Z.ltb.
  destruct (-72 ?= e); reflexivity.
Qed.

(** An exactly representable difference [± k * 2^e]. *)
Lemma gtb_eps_exact s k e :
  -106 <= e <= -52 -> digits k <= 53 ->
  gtb (abs (binary_round prec emax s k e)) lit_1e_6
  = match -72 ?= digits k + e - 53 with
    | Lt => true
    | Gt => false
    | Eq => 4722366482869645 <? Zpos k * 2 ^ (53 - digits k)
    end.
Proof.
  intros He Hd.
  destruct (binary_round_shape s k e) as (m' & e' & -> & _ & _ & Hex); [lia | ].
  rewrite fexp_eq in Hex. destruct Hex as [He' Hm']; [lia | ].
  assert (He'' : e' = digits k + e - 53) by lia. clear He'.
  replace (e' <=? emax - prec) with true by (symmetry; apply Z.leb_le; change (emax - prec) with 971; lia).
  rewrite gtb_eps_finite, Hm', He''.
  replace (e - (digits k + e - 53)) with (53 - digits k) by lia. reflexivity.
Qed.

Lemma near_below mx :
  2 ^ 52 <= Zpos mx < 2 ^ 53 ->
  gtb (abs (sub (S754_finite false mx (-53)) one)) lit_1e_6
  = (2 ^ 53 <? (2 ^ 53 - Zpos mx) * 1000000).
Proof.
  intros Hm. rewrite sub_one_finite.
  change (Z.min (-53) (-52)) with (-53). cbn [cond_Zopp].
  replace (Zpos mx * 2 ^ (-53 - -53) - 2 ^ (- -53)) with (- (2 ^ 53 - Zpos mx))
    by (change (2 ^ (-53 - -53)) with 1; change (- -53) with 53; lia).
  destruct (2 ^ 53 - Zpos mx) as [ | k | k] eqn:Hk; [lia | | lia].
  change (- Zpos k) with (Zneg k). cbn [binary_normalize].
  assert (Hd : digits k <= 53) by (apply digits_le; lia).
  rewrite gtb_eps_exact by lia.
  pose proof (digits_lo k) as Hlo. pose proof (digits_hi k) as Hhi.
  destruct (Z.compare_spec (-72) (digits k + -53 - 53)) as [Heq | Hlt | Hgt].
  - replace (digits k) with 34 in * by lia.
    change (2 ^ (53 - 34)) with 524288. change (2 ^ (34 - 1)) with 8589934592 in Hlo.
    change (2 ^ 34) with 17179869184 in Hhi. change (2 ^ 53) with 9007199254740992.
    destruct (Z.ltb_spec 4722366482869645 (Zpos k * 524288));
      destruct (Z.ltb_spec 9007199254740992 (Zpos k * 1000000)); lia.
  - assert (2 ^ 34 <= 2 ^ (digits k - 1)) by (apply Z.pow_le_mono_r; lia).
    symmetry. apply Z.ltb_lt. change (2 ^ 34) with 17179869184 in *.
    change (2 ^ 53) with 9007199254740992. lia.
  - assert (2 ^ digits k <= 2 ^ 33) by (apply Z.pow_le_mono_r; lia).
    symmetry. apply Z.ltb_ge. change (2 ^ 33) with 8589934592 in *.
    change (2 ^ 53) with 9007199254740992. lia.
Qed.

Lemma near_above mx :
  2 ^ 52 <= Zpos mx < 2 ^ 53 ->
  gtb (abs (sub (S754_finite false mx (-52)) one)) lit_1e_6
  = (2 ^ 52 <? (Zpos mx - 2 ^ 52) * 1000000).
Proof.
  intros Hm. rewrite sub_one_finite.
  change (Z.min (-52) (-52)) with (-52). cbn [cond_Zopp].
  replace (Zpos mx * 2 ^ (-52 - -52) - 2 ^ (- -52)) with (Zpos mx - 2 ^ 52)
    by (change (2 ^ (-52 - -52)) with 1; change (- -52) with 52; lia).
  destruct (Zpos mx - 2 ^ 52) as [ | k | k] eqn:Hk; [reflexivity | | lia].
  cbn [binary_normalize].
  assert (Hd : digits k <= 52) by (apply digits_le; lia).
  rewrite gtb_eps_exact by lia.
  pose proof (digits_lo k) as Hlo. pose proof (digits_hi k) as Hhi.
  destruct (Z.compare_spec (-72) (digits k + -52 - 53)) as [Heq | Hlt | Hgt].
  - replace (digits k) with 33 in * by lia.
    change (2 ^ (53 - 33)) with 1048576. change (2 ^ (33 - 1)) with 4294967296 in Hlo.
    change (2 ^ 33) with 8589934592 in Hhi. change (2 ^ 52) with 4503599627370496.
    destruct (Z.ltb_spec 4722366482869645 (Zpos k * 1048576));
      destruct (Z.ltb_spec 4503599627370496 (Zpos k * 1000000)); lia.
  - assert (2 ^ 33 <= 2 ^ (digits k - 1)) by (apply Z.pow_le_mono_r; lia).
    symmetry. apply Z.ltb_lt. change (2 ^ 33) with 8589934592 in *.
    change (2 ^ 52) with 4503599627370496. lia.
  - assert (2 ^ digits k <= 2 ^ 32) by (apply Z.pow_le_mono_r; lia).
    symmetry. apply Z.ltb_ge. change (2 ^ 32) with 4294967296 in *.
    change (2 ^ 52) with 4503599627370496. lia.
Qed.

Lemma in_band_frac n p :
  in_band (n # p) <-> 999999 * Zpos p <= n * 1000000 /\ n * 1000000 <= 1000001 * Zpos p.
Proof. unfold in_band, band_lo, band_hi, Qle. cbn [Qnum Qden]. reflexivity. Qed.

Lemma to_Q_finite s m e :
  exists n p, to_Q (S754_finite s m e) = n # p
    /\ ((0 <= e /\ n = cond_Zopp s (Zpos m * 2 ^ e) /\ Zpos p = 1)
        \/ (e < 0 /\ n = cond_Zopp s (Zpos m) /\ Zpos p = 2 ^ (- e))).
Proof.
  unfold to_Q. cbv zeta. destruct (Z.leb_spec 0 e) as [He | He].
  - exists (cond_Zopp s (Zpos m) * 2 ^ e), 1%positive. split; [reflexivity | ].
    left. split; [exact He | ]. split; [destruct s; cbn [cond_Zopp]; lia | reflexivity].
  - exists (cond_Zopp s (Zpos m)), (2 ^ Z.to_pos (- e))%positive. split; [reflexivity | ].
    right. split; [exact He | ]. split; [reflexivity | ].
    rewrite Pos2Z.inj_pow, Z2Pos.id by lia. reflexivity.
Qed.

Lemma pow2_split e : e <= -1 -> 2 ^ (- e) = 2 * 2 ^ (- e - 1).
Proof.
  intros He. replace (- e) with (Z.succ (- e - 1)) at 1 by lia.
  apply Z.pow_succ_r. lia.
Qed.

(** The check [Math.abs(sum - 1) > 1e-6] on a binary64 value, against the
    interval of reals [[1 - 10^-6, 1 + 10^-6]]. *)
Theorem gtb_eps_iff_band x :
  valid x = true -> is_nan x = false ->
  gtb (abs (sub x one)) lit_1e_6 = false <-> in_band (to_Q x).
Proof.
  intros Hv Hn. destruct x as [s | s | | s m e].
  - split; [destruct s; discriminate | ].
    cbn [to_Q]. rewrite in_band_frac. lia.
  - split; [destruct s; discriminate | ].
    cbn [to_Q]. rewrite in_band_frac. lia.
  - discriminate.
  - cbn [valid valid_binary] in Hv. apply bounded_inv in Hv. destruct Hv as (He & Hd & Hd53).
    pose proof (digits_lo m) as Hlo. pose proof (digits_hi m) as Hhi.
    assert (Hm53 : Zpos m < 2 ^ 53).
    { assert (2 ^ digits m <= 2 ^ 53) by (apply Z.pow_le_mono_r; lia). lia. }
    destruct (to_Q_finite s m e) as (n & p & -> & Hnp). rewrite in_band_frac.
    destruct s.
    + (* negative *)
      cbn [cond_Zopp] in Hnp.
      assert (Hn0 : n < 0).
      { destruct Hnp as [(H0 & -> & _) | (H0 & -> & _)]; [ | lia].
        assert (0 < 2 ^ e) by (apply Z.pow_pos_nonneg; lia). nia. }
      rewrite sub_one_finite, gtb_eps_far.
      * split; [discriminate | lia].
      * lia.
      * cbn [cond_Zopp]. set (ez := Z.min e (-52)).
        assert (0 < 2 ^ (e - ez)) by (apply Z.pow_pos_nonneg; lia).
        assert (0 < 2 ^ (- ez - 1)) by (apply Z.pow_pos_nonneg; lia).
        rewrite (pow2_split ez) by lia. nia.
    + cbn [cond_Zopp] in Hnp.
      destruct (Z.le_gt_cases (-51) e) as [Hbig | Hsmall].
      * (* at least two *)
        rewrite Hd53 in Hlo by lia. change (2 ^ (53 - 1)) with (2 ^ 52) in Hlo.
        rewrite sub_one_finite, gtb_eps_far.
        -- split; [discriminate | ]. intros [_ Hhi'].
           destruct Hnp as [(H0 & -> & Hp) | (H0 & -> & Hp)].
           ++ assert (0 < 2 ^ e) by (apply Z.pow_pos_nonneg; lia).
              assert (Zpos m <= Zpos m * 2 ^ e) by nia.
              change (2 ^ 52) with 4503599627370496 in Hlo. lia.
           ++ assert (2 ^ (- e) <= 2 ^ 51) by (apply Z.pow_le_mono_r; lia).
              change (2 ^ 52) with 4503599627370496 in Hlo.
              change (2 ^ 51) with 2251799813685248 in *. lia.
        -- lia.
        -- replace (Z.min e (-52)) with (-52) by lia. cbn [cond_Zopp].
           assert (2 ^ 1 <= 2 ^ (e - -52)) by (apply Z.pow_le_mono_r; lia).
           change (2 ^ 1) with 2 in *. change (2 ^ (- -52)) with (2 ^ 52).
           change (2 ^ (- -52 - 1)) with (2 ^ 51).
           change (2 ^ 52) with 4503599627370496 in *.
           change (2 ^ 51) with 2251799813685248 in *. nia.
      * destruct (Z.le_gt_cases e (-54)) as [Hlow | Hnear].
        -- (* below one half *)
           assert (Hp2 : 2 ^ 53 <= 2 ^ (- e - 1)) by (apply Z.pow_le_mono_r; lia).
           pose proof (pow2_split e ltac:(lia)) as Hsp.
           rewrite sub_one_finite, gtb_eps_far.
           ++ split; [discriminate | ]. intros [Hlo' _].
              destruct Hnp as [(H0 & _) | (H0 & -> & Hp)]; [lia | ]. lia.
           ++ lia.
           ++ replace (Z.min e (-52)) with e by lia. cbn [cond_Zopp].
              rewrite Z.sub_diag. change (2 ^ 0) with 1. lia.
        -- rewrite Hd53 in Hlo by lia. change (2 ^ (53 - 1)) with (2 ^ 52) in Hlo.
           destruct Hnp as [(H0 & _) | (H0 & -> & Hp)]; [lia | ].
           assert (e = -53 \/ e = -52) as [-> | ->] by lia.
           ++ rewrite near_below by lia. rewrite Hp. change (2 ^ (- -53)) with (2 ^ 53).
              change (2 ^ 53) with 9007199254740992 in *.
              destruct (Z.ltb_spec 9007199254740992 ((9007199254740992 - Zpos m) * 1000000));
                split; intros; try discriminate; try reflexivity; lia.
           ++ rewrite near_above by lia. rewrite Hp. change (2 ^ (- -52)) with (2 ^ 52).
              change (2 ^ 52) with 4503599627370496 in *.
              change (2 ^ 53) with 9007199254740992 in *.
              destruct (Z.ltb_spec 4503599627370496 ((Zpos m - 4503599627370496) * 1000000));
                split; intros; try discriminate; try reflexivity; lia.
Qed.

Lemma bounded_intro m e :
  fexp prec emax (digits m + e) = e -> e <= emax - prec -> bounded prec emax m e = true.
Proof.
  intros Hc He. unfold bounded, canonical_mantissa.
  apply andb_true_iff. split; [apply Z.eqb_eq, Hc | apply Z.leb_le, He].
Qed.

Lemma add_nonneg_sum acc y :
  nonneg_sum acc -> positive_finite y -> nonneg_sum (add acc y).
Proof.
  destruct y as [ | | | [] my ey]; try contradiction. intros Hacc Hy.
  destruct acc as [[] | [] | | [] mx ex]; try contradiction; try exact Hy; try exact I.
  cbn [nonneg_sum positive_finite] in Hacc, Hy.
  apply bounded_inv in Hacc. apply bounded_inv in Hy.
  unfold add, SFadd. cbv zeta. cbn [cond_Zopp].
  rewrite <- Pos2Z.inj_add. cbn [binary_normalize].
  destruct (binary_round_shape false
              (fst (shl_align mx ex (Z.min ex ey)) + fst (shl_align my ey (Z.min ex ey)))
              (Z.min ex ey)) as (m' & e' & -> & Hc & _); [lia | ].
  destruct (Z.leb_spec e' (emax - prec)) as [He' | He']; [ | exact I].
  cbn [nonneg_sum]. apply bounded_intro; assumption.
Qed.

Lemma nonneg_sum_valid x : nonneg_sum x -> valid x = true /\ is_nan x = false.
Proof.
  destruct x as [[] | [] | | [] m e]; cbn; intros H; try contradiction; auto.
Qed.

Lemma positive_finite_iff x :
  positive_finite x <-> valid x = true /\ ltb zero x = true /\ leb x (S754_infinity false) = true
                        /\ x <> S754_infinity false.
Proof.
  destruct x as [[] | [] | | [] m e]; cbn; intuition (try discriminate; try congruence).
Qed.


(** The literals are the binary64 values of their decimal forms. *)
Lemma literal_values :
  (to_Q one == 1)%Q /\ (to_Q lit_20 == 20)%Q /\ (to_Q lit_100 == 100)%Q
  /\ (to_Q Example.lit_150 == 150)%Q /\ (to_Q Example.lit_12_5 == 25 # 2)%Q
  /\ (to_Q Example.lit_0_5 == 1 # 2)%Q
  /\ (Qabs (to_Q lit_1e_6 - (1 # 1000000)) <= 1 # 2 ^ 73)%Q
  /\ (Qabs (to_Q Example.lit_0_6 - (6 # 10)) <= 1 # 2 ^ 54)%Q
  /\ (Qabs (to_Q Example.lit_0_4 - (4 # 10)) <= 1 # 2 ^ 55)%Q
  /\ (Qabs (to_Q Example.lit_0_9 - (9 # 10)) <= 1 # 2 ^ 54)%Q
  /\ (Qabs (to_Q Example.lit_0_999999 - (999999 # 1000000)) <= 1 # 2 ^ 54)%Q.
Proof.
  repeat match goal with |- _ /\ _ => split end;
    first [ apply Qeq_bool_iff | apply Qle_bool_iff ]; vm_compute; reflexivity.
Qed.

(** The binary64 value of [0.999999] lies just below [1 - 10^-6]: as a
    sum of shares it is outside the interval and fails the check. *)
Lemma sum_0_999999_is_off :
  ~ in_band (to_Q Example.lit_0_999999)
  /\ gtb (abs (sub Example.lit_0_999999 one)) lit_1e_6 = true.
Proof.
  split; [ | vm_compute; reflexivity].
  intros [H _]. apply Qle_bool_iff in H. vm_compute in H. discriminate H.
Qed.

End NumFacts.

(** ** Computations *)

Lemma bind_ok {A B} (m : M A) (f : A -> M B) w log log' a :
  m w log = (log', Ok a) -> (m ≫= f) w log = f a w log'.
Proof. intros H. unfold mbind, M_bind. rewrite H. reflexivity. Qed.


Lemma truthy_opt_Some s : s ≠ "" -> truthy_opt (Some s) = true.
Proof.
  intros H. unfold truthy_opt, of_opt, truthy.
  rewrite bool_decide_eq_false_2 by exact H. reflexivity.
Qed.

Lemma truthy_opt_true o : truthy_opt o = true -> exists s, o = Some s /\ s ≠ "".
Proof.
  destruct o as [s | ]; [ | discriminate]. unfold truthy_opt, of_opt, truthy.
  intros H. exists s. split; [reflexivity | ].
  apply negb_true_iff, bool_decide_eq_false in H. exact H.
Qed.

(** ** The tools *)

Module McpFacts.
Import Mcp.

(** C9. The [health] tool takes no input and never fails; what it returns
    is the text [ok], while the payload [{ok: true}] is what the HTTP
    endpoint [GET /health] answers. *)
Theorem health_returns_text_ok :
  (forall w log, health w log = (log, Ok (text_result (VStr "ok"))))
  /\ text_result (VStr "ok") <> text_result (VObj [("ok", VBool true)])
  /\ Session.get_health = Session.Json 200 (VObj [("ok", VBool true)]).
Proof.
  split; [reflexivity | ]. split; [discriminate | reflexivity].
Qed.

Section Selection.

Variable toLowerCase : string -> string.
Variable Number_toString : number -> string.
Variable JSON_stringify : value -> value.


Variable CODE : string.



Lemma z_limit_Some v l :
  z_limit v = Some l ->
  v = VNum l /\ Num.isInteger l = true /\ Num.ltb l Num.one = false
  /\ Num.ltb Num.lit_100 l = false.
Proof.
  unfold z_limit, z_number, Num.gtb, Num.ltb.
  destruct v as [ | | | n | | | ]; try discriminate.
  destruct (Num.is_nan n); [discriminate | ]. cbn [mbind option_bind].
  destruct (Num.isInteger n) eqn:Ei; [ | discriminate].
  destruct (SFltb n Num.one) eqn:E1; [discriminate | ].
  destruct (SFltb Num.lit_100 n) eqn:E100; [discriminate | ].
  cbn [negb check mbind option_bind]. intros [= <-]. auto.
Qed.



End Selection.

(** *** The share-sum check *)

Lemma z_share_positive_finite x :
  Num.valid x = true -> z_share (VNum x) = Some x -> Num.positive_finite x.
Proof.
  intros Hv Hz. destruct x as [s | s | | s m e].
  - exfalso. destruct s; discriminate Hz.
  - exfalso. destruct s; discriminate Hz.
  - discriminate Hz.
  - destruct s.
    + discriminate Hz.
    + exact Hv.
Qed.

Lemma z_share_Some v n : z_share v = Some n -> z_share (VNum n) = Some n.
Proof.
  intros H. assert (Hv : v = VNum n).
  { unfold z_share, z_number in H. destruct v as [ | | | x | | | ]; try discriminate H.
    destruct (Num.is_nan x); [discriminate H | ]. cbn [mbind option_bind] in H.
    destruct (check (Num.gtb x Num.zero)); [ | discriminate H]. cbn [mbind option_bind] in H.
    destruct (check (Num.leb x Num.one)); [ | discriminate H]. cbn [mbind option_bind] in H.
    congruence. }
  rewrite <- Hv. exact H.
Qed.

Lemma ProfiteerLoose_parse_share v p :
  ProfiteerLoose_parse v = Some p -> z_share (VNum (q_share p)) = Some (q_share p).
Proof.
  unfold ProfiteerLoose_parse. destruct (check (is_object v)); [ | discriminate].
  cbn [mbind option_bind].
  destruct (z_string_optional (get v "userId")) as [userId | ]; [ | discriminate].
  cbn [mbind option_bind].
  destruct (z_string_optional (get v "name")) as [name | ]; [ | discriminate].
  cbn [mbind option_bind].
  destruct (z_share (get v "share")) as [share | ] eqn:Es; [ | discriminate].
  cbn [mbind option_bind].
  destruct (check (truthy_opt userId || truthy_opt name)); [ | discriminate].
  cbn [mbind option_bind]. intros [= <-]. cbn [q_share]. apply (z_share_Some _ _ Es).
Qed.

Lemma z_array_min1_Forall {A} (item : value -> option A) (P : A -> Prop) v l :
  (forall x a, item x = Some a -> P a) -> z_array_min1 item v = Some l -> Forall P l.
Proof.
  intros HP. unfold z_array_min1. destruct v as [ | | | | | items | ]; try discriminate.
  destruct (mapM item items) as [l' | ] eqn:Em; [ | discriminate].
  cbn [mbind option_bind]. destruct (check _); [ | discriminate].
  cbn [mbind option_bind]. intros [= <-].
  apply mapM_Some in Em. induction Em as [ | x a xs l'' Hx _ IH]; constructor; eauto.
Qed.

Lemma CreateExpenseInput_parse_shares raw args :
  CreateExpenseInput_parse raw = Some args ->
  Forall (fun p => z_share (VNum (q_share p)) = Some (q_share p)) (ce_profiteers args).
Proof.
  unfold CreateExpenseInput_parse. destruct (check (is_object raw)); [ | discriminate].
  cbn [mbind option_bind].
  repeat match goal with
  | |- context [mbind _ ?o] =>
      match o with
      | z_array_min1 ProfiteerLoose_parse _ => fail 1
      | _ => destruct o; [ | discriminate]; cbn [mbind option_bind]
      end
  end.
  destruct (z_array_min1 ProfiteerLoose_parse (get raw "profiteers")) as [ps | ] eqn:E;
    [ | discriminate].
  cbn [mbind option_bind]. intros [= <-]. cbn [ce_profiteers].
  apply (z_array_min1_Forall _ _ _ _ ProfiteerLoose_parse_share E).
Qed.

(** The sum of shares that passed the schema is [+0], a positive binary64
    value or [+Infinity]; it is not NaN. *)
Lemma share_sum_nonneg_sum profiteers :
  Forall (fun p => Num.valid (q_share p) = true) profiteers ->
  Forall (fun p => z_share (VNum (q_share p)) = Some (q_share p)) profiteers ->
  Num.nonneg_sum (share_sum profiteers).
Proof.
  unfold share_sum. intros Hv Hz.
  assert (Hacc : Num.nonneg_sum Num.zero) by exact I.
  revert Hacc Hz. generalize Num.zero as acc.
  induction Hv as [ | p ps Hp _ IH]; intros acc Hacc Hz; cbn [fold_left].
  - exact Hacc.
  - apply Forall_cons in Hz. destruct Hz as [Hzp Hz].
    apply IH; [ | exact Hz]. apply NumFacts.add_nonneg_sum; [exact Hacc | ].
    apply z_share_positive_finite; assumption.
Qed.

Section ShareSum.

Variable toLowerCase : string -> string.
Variable Number_toString : number -> string.
Variable JSON_stringify : value -> value.
Variable splid : SplidApi.


End ShareSum.




End McpFacts.

(** ** The name resolver *)

Module ResolverFacts.
Import Mcp.

Section Resolver.

Variable toLowerCase : string -> string.

Lemma dict_set_proto {A} (d : gmap string A) k a :
  d !! "__proto__" = None -> dict_set d k a !! "__proto__" = None.
Proof.
  intros H. unfold dict_set. case_bool_decide as Hk; [exact H | ].
  rewrite lookup_insert_ne by exact Hk. exact H.
Qed.

Lemma index_member_proto idx m :
  idx !! "__proto__" = None -> index_member toLowerCase idx m !! "__proto__" = None.
Proof.
  intros H. unfold index_member. destruct (truthy m); [ | exact H].
  destruct (get m "name"); try exact H. destruct (get m "GlobalId"); try exact H.
  apply dict_set_proto, H.
Qed.

(** The index never has an own entry [__proto__]. *)
Lemma index_members_proto items :
  index_members toLowerCase items !! "__proto__" = None.
Proof.
  unfold index_members.
  assert (H : (∅ : gmap string string) !! "__proto__" = None) by apply lookup_empty.
  revert H. generalize (∅ : gmap string string) as idx.
  induction items as [ | m items IH]; intros idx H; cbn [fold_left]; [exact H | ].
  apply IH, index_member_proto, H.
Qed.

Lemma index_member_other idx m k :
  (forall name gid,
      get m "name" = VStr name -> get m "GlobalId" = VStr gid -> toLowerCase name ≠ k) ->
  index_member toLowerCase idx m !! k = idx !! k.
Proof.
  intros H. unfold index_member. destruct (truthy m); [ | reflexivity].
  destruct (get m "name") as [ | | | | name | | ]; try reflexivity.
  destruct (get m "GlobalId") as [ | | | | gid | | ]; try reflexivity.
  unfold dict_set. case_bool_decide; [reflexivity | ].
  apply lookup_insert_ne. apply (H name gid); reflexivity.
Qed.

(** The member listed last under a lower-cased name is the one the index
    keeps for that name. *)
Lemma index_members_member before fields after name gid :
  get (VObj fields) "name" = VStr name ->
  get (VObj fields) "GlobalId" = VStr gid ->
  toLowerCase name ≠ "__proto__" ->
  Forall (fun m => forall name' gid',
              get m "name" = VStr name' -> get m "GlobalId" = VStr gid' ->
              toLowerCase name' ≠ toLowerCase name) after ->
  index_members toLowerCase (before ++ VObj fields :: after) !! toLowerCase name = Some gid.
Proof.
  intros Hname Hgid Hk Hafter. unfold index_members.
  rewrite fold_left_app. cbn [fold_left].
  generalize (fold_left (index_member toLowerCase) before ∅). intros idx.
  assert (H0 : index_member toLowerCase idx (VObj fields) !! toLowerCase name = Some gid).
  { unfold index_member. cbn [truthy]. rewrite Hname, Hgid. unfold dict_set.
    rewrite bool_decide_eq_false_2 by exact Hk. apply lookup_insert_eq. }
  revert H0. generalize (index_member toLowerCase idx (VObj fields)). clear idx.
  induction Hafter as [ | m after Hm _ IH]; intros idx H0; cbn [fold_left]; [exact H0 | ].
  apply IH. rewrite (index_member_other idx m _ Hm). exact H0.
Qed.

Lemma truthy_slot_Own s : s ≠ "" -> truthy_slot (Own s) = true.
Proof. intros H. cbn [truthy_slot]. rewrite bool_decide_eq_false_2 by exact H. reflexivity. Qed.

(** One present name. *)
Lemma resolve_names_present idx n rest resolved gid :
  idx !! toLowerCase n = Some gid -> gid ≠ "" ->
  resolve_names toLowerCase idx (n :: rest) resolved
  = resolve_names toLowerCase idx rest (dict_set resolved n (Own gid)).
Proof.
  intros Hi Hg. cbn [resolve_names]. unfold dict_get at 1. rewrite Hi.
  rewrite (truthy_slot_Own gid Hg). unfold dict_get. rewrite Hi. reflexivity.
Qed.

(** One name that the index does not have and [Object.prototype] does
    not define. *)
Lemma resolve_names_unknown idx n rest resolved w log :
  idx !! toLowerCase n = None -> inherited (toLowerCase n) = false ->
  resolve_names toLowerCase idx (n :: rest) resolved w log
  = (log, Throw (Error ("Unknown member name: " +:+ n))).
Proof.
  intros Hi Hp. cbn [resolve_names]. unfold dict_get. rewrite Hi, Hp. reflexivity.
Qed.

(** One name that the index does not have and [Object.prototype]
    defines. *)
Lemma resolve_names_inherited idx n rest resolved :
  idx !! toLowerCase n = None -> inherited (toLowerCase n) = true ->
  resolve_names toLowerCase idx (n :: rest) resolved
  = resolve_names toLowerCase idx rest (dict_set resolved n (Inherited (toLowerCase n))).
Proof.
  intros Hi Hp. cbn [resolve_names]. unfold dict_get. rewrite Hi, Hp. reflexivity.
Qed.

(** The loop stops at the first unknown name, whatever follows it, and
    returns no mapping. *)
Lemma resolve_names_first_unknown idx known n rest resolved w log :
  Forall (fun p => truthy_slot (dict_get idx (toLowerCase p)) = true) known ->
  idx !! toLowerCase n = None -> inherited (toLowerCase n) = false ->
  resolve_names toLowerCase idx (known ++ n :: rest) resolved w log
  = (log, Throw (Error ("Unknown member name: " +:+ n))).
Proof.
  intros Hk Hi Hp. revert resolved.
  induction Hk as [ | p known Hp1 _ IH]; intros resolved.
  - apply resolve_names_unknown; assumption.
  - cbn [app resolve_names]. rewrite Hp1. apply IH.
Qed.

Variable splid : SplidApi.

Lemma resolveUserIdsByName_run groupId names w log log1 members items :
  listMembers splid groupId w log = (log1, Ok members) ->
  (member_list members ≫= iterate) w log1 = (log1, Ok items) ->
  resolveUserIdsByName toLowerCase splid groupId names w log
  = resolve_names toLowerCase (index_members toLowerCase items) names ∅ w log1.
Proof.
  intros Hl Hm. unfold resolveUserIdsByName. rewrite (bind_ok _ _ _ _ _ _ Hl).
  unfold mbind, M_bind in Hm |- *.
  destruct (member_list members w log1) as [log2 [lst | e]]; [ | discriminate Hm].
  destruct (iterate lst w log2) as [log3 [items' | e]]; [ | discriminate Hm].
  injection Hm as -> ->. reflexivity.
Qed.


End Resolver.


(** C4. The name [constructor], which the member index does not have,
    does not make the resolver fail: the read of the index falls through
    to [Object.prototype], whose member is truthy, and the resolver returns
    a mapping from the name to that member. *)
Theorem resolver_unknown_name_constructor :
  index_members Example.ascii_lower [Example.alice; Example.bob]
    !! Example.ascii_lower "constructor" = None
  /\ resolveUserIdsByName Example.ascii_lower (Server.splidApi "CODE") (VStr "g1")
       ["constructor"] Example.service []
     = ([PersonGetByGroup (VStr "g1")],
        Ok {[ "constructor" := Inherited "constructor" ]})
  /\ resolveUserIdsByName Example.ascii_lower (Server.splidApi "CODE") (VStr "g1")
       ["Carol"] Example.service []
     = ([PersonGetByGroup (VStr "g1")], Throw (Error "Unknown member name: Carol")).
Proof.
  split; [vm_compute; reflexivity | ].
  split; vm_compute; reflexivity.
Qed.

End ResolverFacts.

(** ** End to end *)

Module EndToEnd.
Import Mcp ResolverFacts.

Section EndToEnd.

Variable toLowerCase : string -> string.
Variable Number_toString : number -> string.
Variable JSON_stringify : value -> value.
Variable splid : SplidApi.

(** C2. A [createExpense] call with payer Alice (12.5) and profiteers
    Bob (0.6) and Alice (0.4), all given by name, against a default group
    whose member index has Alice and Bob: the arguments pass the schema, the
    shares pass the check, both names are resolved, and [splid.createExpense]
    is called with the amount 12.5, the payer [{userId: Alice's id, amount:
    12.5}] and the profiteers [{userId: Bob's id, share: 0.6}] and
    [{userId: Alice's id, share: 0.4}]; the tool returns what that call
    resolves with, serialized. *)
Theorem createExpense_by_names title group members items a b w log log1 log2 :
  getDefaultGroup splid w log = (log1, Ok group) ->
  listMembers splid (id group) w log1 = (log2, Ok members) ->
  (member_list members ≫= iterate) w log2 = (log2, Ok items) ->
  index_members toLowerCase items !! toLowerCase "Alice" = Some a -> a ≠ "" ->
  index_members toLowerCase items !! toLowerCase "Bob" = Some b -> b ≠ "" ->
  tool_createExpense toLowerCase Number_toString JSON_stringify splid
    (Example.raw_by_names title) w log
  = let '(log3, r) :=
      createExpense splid
        {| e_groupId := id group;
           e_title := title;
           e_amount := Example.lit_12_5;
           e_currencyCode := coalesce (currencyCode group) (VStr "EUR");
           e_payers := [(Own a, Example.lit_12_5)];
           e_profiteers := [(Own b, Example.lit_0_6); (Own a, Example.lit_0_4)] |}
        w log2 in
    (log3, Completed match r with
                     | Ok created => Ok (text_result (JSON_stringify created))
                     | Throw e => Throw e
                     end).
Proof.
  intros Hg Hl Hm Ha Ha0 Hb Hb0.
  unfold tool_createExpense, registerTool.
  replace (CreateExpenseInput_parse (Example.raw_by_names title))
    with (Some {| ce_title := title; ce_amount := Example.lit_12_5;
                  ce_currencyCode := None;
                  ce_payers := [ {| p_userId := None; p_name := Some "Alice";
                                    p_amount := Example.lit_12_5 |} ];
                  ce_profiteers := [ {| q_userId := None; q_name := Some "Bob";
                                        q_share := Example.lit_0_6 |};
                                     {| q_userId := None; q_name := Some "Alice";
                                        q_share := Example.lit_0_4 |} ];
                  ce_groupId := None; ce_groupCode := None; ce_groupName := None |})
    by (vm_compute; reflexivity).
  unfold createExpense_handler.
  change (select_group splid _ _ _) with (getDefaultGroup splid).
  rewrite (bind_ok _ _ _ _ _ _ Hg).
  unfold createExpense_in_group.
  replace (share_sum_off _) with false by (vm_compute; reflexivity).
  unfold createExpense_checked.
  replace (dedupe _) with ["Alice"; "Bob"] by (vm_compute; reflexivity).
  rewrite bool_decide_eq_false_2 by discriminate.
  rewrite (bind_ok _ _ _ _ log2 (<["Bob" := Own b]> (<["Alice" := Own a]> ∅))).
  - cbn [ce_payers ce_profiteers fmap list_fmap p_userId p_name p_amount q_userId q_name
           q_share normalize_id from_option Datatypes.id].
    assert (HA : dict_get (<["Bob" := Own b]> (<["Alice" := Own a]> ∅) : gmap string (slot string))
                   "Alice" = Own (Own a)).
    { unfold dict_get. rewrite lookup_insert_ne by discriminate.
      rewrite lookup_insert_eq. reflexivity. }
    assert (HB : dict_get (<["Bob" := Own b]> (<["Alice" := Own a]> ∅) : gmap string (slot string))
                   "Bob" = Own (Own b)).
    { unfold dict_get. rewrite lookup_insert_eq. reflexivity. }
    rewrite HA, HB. cbn [existsb fst]. rewrite !truthy_slot_Own by assumption.
    cbn [negb orb ce_title ce_amount ce_currencyCode of_opt coalesce nullish].
    unfold mbind, M_bind. destruct (createExpense splid _ w log2) as [log3 [created | e]];
      reflexivity.
  - rewrite (resolveUserIdsByName_run _ _ _ _ _ _ _ _ _ Hl Hm).
    rewrite (resolve_names_present _ _ _ _ _ _ Ha Ha0).
    rewrite (resolve_names_present _ _ _ _ _ _ Hb Hb0).
    reflexivity.
Qed.

End EndToEnd.

Lemma createExpense_by_names_witness :
  tool_createExpense Example.ascii_lower Example.number_repr Example.stringify
    (Server.splidApi "CODE") (Example.raw_by_names "Dinner") Example.service []
  = ([GroupGetByInviteCode "CODE"; GroupInfoGetOneByGroup (VStr "g1");
      PersonGetByGroup (VStr "g1");
      EntryExpenseCreate
        {| Client.o_groupId := VStr "g1"; Client.o_title := "Dinner";
           Client.o_payers := [(Own "id-alice", Example.lit_12_5)];
           Client.o_currencyCode := VStr "EUR" |}
        {| Client.i_amount := Example.lit_12_5;
           Client.i_profiteers := [(Own "id-bob", Example.lit_0_6);
                                   (Own "id-alice", Example.lit_0_4)] |}],
     Completed (Ok (text_result (Example.stringify (VObj [("created", VBool true)]))))).
Proof.
  rewrite (createExpense_by_names Example.ascii_lower Example.number_repr Example.stringify
             (Server.splidApi "CODE") "Dinner"
             {| id := VStr "g1"; currencyCode := VStr "EUR" |}
             (VObj [("result", VObj [("results", VArr [Example.alice; Example.bob])])])
             [Example.alice; Example.bob] "id-alice" "id-bob" Example.service []
             [GroupGetByInviteCode "CODE"; GroupInfoGetOneByGroup (VStr "g1")]
             [GroupGetByInviteCode "CODE"; GroupInfoGetOneByGroup (VStr "g1");
              PersonGetByGroup (VStr "g1")]).
  - reflexivity.
  - reflexivity.
  - reflexivity.
  - reflexivity.
  - vm_compute. reflexivity.
  - discriminate.
  - vm_compute. reflexivity.
  - discriminate.
Defined.

End EndToEnd.

(** ** The session map *)

Module SessionFacts.
Import Session.

Lemma has_shape_length shape s : has_shape shape s = true -> String.length s = length shape.
Proof.
  revert s. induction shape as [ | hex shape IH]; intros [ | c s]; cbn [has_shape];
    try discriminate; [reflexivity | ].
  intros H. apply andb_true_iff in H. destruct H as [_ H].
  cbn [String.length length]. f_equal. apply IH, H.
Qed.

Lemma uuid_length s : is_uuid s = true -> String.length s = 36%nat.
Proof. intros H. apply has_shape_length in H. exact H. Qed.

Lemma uuid_nonempty s : is_uuid s = true -> s ≠ "".
Proof. intros H ->. discriminate H. Qed.

Lemma uuid_not_inherited s : is_uuid s = true -> inherited s = false.
Proof.
  intros H. apply uuid_length in H. unfold inherited.
  apply bool_decide_eq_false_2. unfold ObjectPrototype. intros Hin.
  repeat (apply elem_of_cons in Hin; destruct Hin as [-> | Hin]; [discriminate H | ]).
  apply elem_of_nil in Hin. exact Hin.
Qed.

Lemma dict_get_uuid_absent (transports : gmap string transport) s :
  is_uuid s = true -> transports !! s = None -> dict_get transports s = Undefined.
Proof.
  intros Hu Hn. unfold dict_get. rewrite Hn, (uuid_not_inherited s Hu). reflexivity.
Qed.

Lemma truthy_opt_uuid s : is_uuid s = true -> truthy_opt (Some s) = true.
Proof. intros H. apply truthy_opt_Some, uuid_nonempty, H. Qed.

Section Endpoints.

Variable isInitializeRequest : value -> bool.
Variable initializes : request -> bool.

Abbreviation post_mcp := (Session.post_mcp isInitializeRequest initializes).
Abbreviation step := (Session.step isInitializeRequest initializes).
Abbreviation run := (Session.run isInitializeRequest initializes).

(** A request without a session identifier that is not an initialize
    request is answered 400 and leaves the map as it is. *)
Lemma post_without_session transports req fresh :
  truthy_opt (session_header req) = false -> isInitializeRequest (body req) = false ->
  post_mcp transports req fresh = (transports, Json 400 no_valid_session).
Proof. intros Hh Hi. unfold Session.post_mcp. rewrite Hh, Hi. reflexivity. Qed.

(** So is a request whose identifier is neither a key of the map nor a
    member of [Object.prototype]. *)
Lemma post_unknown_session transports req fresh sid :
  session_header req = Some sid -> sid ≠ "" ->
  transports !! sid = None -> inherited sid = false ->
  post_mcp transports req fresh = (transports, Json 400 no_valid_session).
Proof.
  intros Hh Hs Hn Hp. unfold Session.post_mcp. rewrite Hh, (truthy_opt_Some sid Hs).
  cbn [from_option Datatypes.id]. unfold dict_get. rewrite Hn, Hp. reflexivity.
Qed.

(** C7. A request that bears the identifier [constructor], which the
    session map does not have, is answered 500 [Internal error], not a
    client error: the read of the map falls through to [Object.prototype].
    The map is left as it is. A request whose identifier is [Carol] is
    answered 400. *)
Theorem post_unknown_session_constructor body fresh :
  (∅ : gmap string transport) !! "constructor" = None
  /\ post_mcp ∅ {| session_header := Some "constructor"; body := body |} fresh
     = (∅, Json 500 internal_error)
  /\ is_client_error (Json 500 internal_error) = false
  /\ post_mcp ∅ {| session_header := Some "Carol"; body := body |} fresh
     = (∅, Json 400 no_valid_session).
Proof.
  split; [apply lookup_empty | ]. split; [reflexivity | ]. split; reflexivity.
Qed.

Lemma post_mcp_preserves_absent transports req fresh sid :
  transports !! sid = None -> uuid_str fresh ≠ sid ->
  (post_mcp transports req fresh).1 !! sid = None.
Proof.
  intros Hn Hf. unfold Session.post_mcp.
  destruct (truthy_opt (session_header req)).
  - destruct (dict_get transports _); exact Hn.
  - destruct (negb (isInitializeRequest (body req))); [exact Hn | ].
    destruct (initializes req); [ | exact Hn].
    cbn [fst]. rewrite lookup_insert_ne by exact Hf. exact Hn.
Qed.

Lemma onclose_preserves_absent (transports : gmap string transport) t sid :
  transports !! sid = None -> onclose transports t !! sid = None.
Proof.
  intros Hn. unfold onclose. destruct (sessionId t) as [s | ]; [ | exact Hn].
  destruct (truthy (VStr s) && _); [ | exact Hn].
  apply lookup_delete_None. right. exact Hn.
Qed.

Lemma onclose_removes (transports : gmap string transport) t sid :
  sessionId t = Some sid -> is_uuid sid = true -> onclose transports t !! sid = None.
Proof.
  intros Ht Hu. unfold onclose. rewrite Ht.
  replace (truthy (VStr sid)) with true by (symmetry; apply (truthy_opt_uuid sid Hu)).
  cbn [andb]. unfold dict_get. destruct (transports !! sid) eqn:E.
  - apply lookup_delete_eq.
  - rewrite (uuid_not_inherited sid Hu). exact E.
Qed.

Lemma onclose_absent (transports : gmap string transport) t sid :
  sessionId t = Some sid -> is_uuid sid = true -> transports !! sid = None ->
  onclose transports t = transports.
Proof.
  intros Ht Hu Hn. unfold onclose. rewrite Ht.
  rewrite (dict_get_uuid_absent _ _ Hu Hn). rewrite andb_false_r. reflexivity.
Qed.

Lemma step_rejects_absent transports ev sid :
  is_uuid sid = true -> transports !! sid = None -> bears ev sid ->
  exists resp, (step transports ev).2 = Some resp /\ invalid_session resp.
Proof.
  intros Hu Hn Hb. destruct ev as [req fresh | req | req | t]; cbn [bears] in Hb.
  - cbn [Session.step]. unfold Session.post_mcp.
    rewrite Hb, (truthy_opt_uuid sid Hu). cbn [from_option Datatypes.id].
    rewrite (dict_get_uuid_absent _ _ Hu Hn). eexists. split; [reflexivity | left; reflexivity].
  - cbn [Session.step snd]. unfold get_or_delete_mcp.
    rewrite Hb, (truthy_opt_uuid sid Hu). cbn [negb from_option Datatypes.id].
    rewrite (dict_get_uuid_absent _ _ Hu Hn). eexists. split; [reflexivity | right; reflexivity].
  - cbn [Session.step snd]. unfold get_or_delete_mcp.
    rewrite Hb, (truthy_opt_uuid sid Hu). cbn [negb from_option Datatypes.id].
    rewrite (dict_get_uuid_absent _ _ Hu Hn). eexists. split; [reflexivity | right; reflexivity].
  - contradiction.
Qed.

Lemma step_preserves_absent transports ev sid :
  transports !! sid = None ->
  (forall req fresh, ev = PostMcp req fresh -> uuid_str fresh ≠ sid) ->
  (step transports ev).1 !! sid = None.
Proof.
  intros Hn Hf. destruct ev as [req fresh | req | req | t]; cbn [Session.step].
  - pose proof (post_mcp_preserves_absent transports req fresh sid Hn (Hf _ _ eq_refl)) as H.
    destruct (Session.post_mcp _ _ transports req fresh). exact H.
  - exact Hn.
  - exact Hn.
  - apply onclose_preserves_absent, Hn.
Qed.

Lemma run_rejects_absent evs : forall transports sid,
  is_uuid sid = true -> transports !! sid = None ->
  (forall req fresh, PostMcp req fresh ∈ evs -> uuid_str fresh ≠ sid) ->
  forall ev r, (ev, r) ∈ (run transports evs).2 -> bears ev sid ->
    exists resp, r = Some resp /\ invalid_session resp.
Proof.
  induction evs as [ | ev0 evs IH]; intros transports sid Hu Hn Hf ev r Hin Hb.
  - cbn in Hin. apply elem_of_nil in Hin. contradiction.
  - cbn [Session.run] in Hin.
    pose proof (step_rejects_absent transports ev0 sid Hu Hn) as Hrej.
    pose proof (step_preserves_absent transports ev0 sid Hn) as Hpres.
    destruct (Session.step _ _ transports ev0) as [t' r0] eqn:Es.
    destruct (Session.run _ _ t' evs) as [t'' rs] eqn:Er.
    cbn [snd fst] in *. apply elem_of_cons in Hin. destruct Hin as [Heq | Hin].
    + injection Heq as -> ->. apply Hrej, Hb.
    + assert (Hn' : t' !! sid = None).
      { apply Hpres. intros req fresh ->. apply (Hf req fresh). left. }
      assert (Hf' : forall req fresh, PostMcp req fresh ∈ evs -> uuid_str fresh ≠ sid).
      { intros req fresh Hin'. apply (Hf req fresh). right. exact Hin'. }
      apply (IH t' sid Hu Hn' Hf' ev r); [rewrite Er; exact Hin | exact Hb].
Qed.

(** C8. When the channel of a session closes, the session's identifier
    is removed from the map, and nothing changes if it was not there. From
    then on, as long as [randomUUID] does not return that identifier again,
    every request that bears it is rejected as an invalid session. *)
Theorem closed_session_is_rejected transports t (sid : uuid) :
  sessionId t = Some (uuid_str sid) ->
  let closed := onclose transports t in
  closed !! uuid_str sid = None
  /\ onclose closed t = closed
  /\ (transports !! uuid_str sid = None -> closed = transports)
  /\ forall evs,
       (forall req fresh, PostMcp req fresh ∈ evs -> uuid_str fresh ≠ uuid_str sid) ->
       forall ev r, (ev, r) ∈ (run closed evs).2 -> bears ev (uuid_str sid) ->
         exists resp, r = Some resp /\ invalid_session resp.
Proof.
  intros Ht closed. pose proof (uuid_ok sid) as Hu.
  pose proof (onclose_removes transports t _ Ht Hu) as Hc. fold closed in Hc.
  split; [exact Hc | ]. split; [apply (onclose_absent _ _ _ Ht Hu Hc) | ].
  split; [apply (onclose_absent _ _ _ Ht Hu) | ].
  intros evs Hf ev r Hin Hb. apply (run_rejects_absent evs closed _ Hu Hc Hf ev r Hin Hb).
Qed.

End Endpoints.

(** A session is registered, its channel closes, and a later request
    that bears its identifier is answered 400. *)
Lemma closed_session_is_rejected_witness :
  let t := {| sessionId := Some Example.a_uuid |} in
  let closed := onclose {[ Example.a_uuid := t ]} t in
  let req := {| session_header := Some Example.a_uuid; body := VNull |} in
  closed !! Example.a_uuid = None
  /\ exists resp, Some (get_or_delete_mcp closed req) = Some resp /\ invalid_session resp.
Proof.
  intros t closed req.
  destruct (closed_session_is_rejected (fun _ => false) (fun _ => false)
              {[ Example.a_uuid := t ]} t Example.the_uuid eq_refl)
    as (H1 & _ & _ & H4).
  split; [exact H1 | ].
  apply (H4 [GetMcp req]) with (ev := GetMcp req).
  - intros r f Hin. apply elem_of_cons in Hin. destruct Hin as [Hin | Hin].
    + discriminate Hin.
    + apply elem_of_nil in Hin. contradiction.
  - apply elem_of_cons. left. reflexivity.
  - reflexivity.
Defined.

End SessionFacts.

(** * Further properties of the code *)

(** ** The name resolver *)

Module ResolverMore.
Import Mcp ResolverFacts.

Section Resolver.

Variable toLowerCase : string -> string.

Lemma index_member_sound idx m k gid :
  index_member toLowerCase idx m !! k = Some gid ->
  idx !! k = Some gid \/ exists name, (truthy m = true /\ get m "name" = VStr name /\ get m "GlobalId" = VStr gid) /\ toLowerCase name = k.
Proof.
  unfold index_member. destruct (truthy m) eqn:Et; [ | auto].
  destruct (get m "name") as [ | | | | name | | ] eqn:En; auto.
  destruct (get m "GlobalId") as [ | | | | g | | ] eqn:Eg; auto.
  unfold dict_set. case_bool_decide; [auto | ].
  destruct (decide (toLowerCase name = k)) as [<- | Hne].
  - rewrite lookup_insert_eq. intros [= <-]. right. exists name. repeat split; assumption.
  - rewrite lookup_insert_ne by exact Hne. auto.
Qed.

Lemma fold_index_sound items : forall idx k gid,
  fold_left (index_member toLowerCase) items idx !! k = Some gid ->
  idx !! k = Some gid
  \/ exists m name, m ∈ items /\ (truthy m = true /\ get m "name" = VStr name /\ get m "GlobalId" = VStr gid) /\ toLowerCase name = k.
Proof.
  induction items as [ | m items IH]; intros idx k gid H; cbn [fold_left] in H; [auto | ].
  apply IH in H. destruct H as [H | (m' & name & Hin & Hl & Hk)].
  - apply index_member_sound in H. destruct H as [H | (name & Hl & Hk)]; [auto | ].
    right. exists m, name. split; [left | auto].
  - right. exists m', name. split; [right; exact Hin | auto].
Qed.

(** X1. Every identifier in the index the resolver builds is the
    [GlobalId] of a listed member whose lower-cased name is the key: the
    resolver never makes up an identifier, and members without a string
    name or a string [GlobalId] contribute nothing. *)
Theorem index_ids_come_from_members items k gid :
  index_members toLowerCase items !! k = Some gid ->
  exists m name, m ∈ items /\ truthy m = true /\ get m "name" = VStr name
                 /\ get m "GlobalId" = VStr gid /\ toLowerCase name = k.
Proof.
  intros H. apply fold_index_sound in H. destruct H as [H | (m & name & Hin & Hl & Hk)].
  - rewrite lookup_empty in H. discriminate H.
  - destruct Hl as (Ht & Hn & Hg). exists m, name. auto.
Qed.

Lemma resolve_names_log idx names : forall resolved w log,
  exists r, resolve_names toLowerCase idx names resolved w log = (log, r).
Proof.
  induction names as [ | n names IH]; intros resolved w log; cbn [resolve_names].
  - eexists. reflexivity.
  - destruct (truthy_slot _); [apply IH | eexists; reflexivity].
Qed.

Lemma prop_log v k w log : exists r, prop v k w log = (log, r).
Proof. unfold prop. destruct (nullish v); eexists; reflexivity. Qed.

Lemma iterate_log v w log : exists r, iterate v w log = (log, r).
Proof. destruct v; eexists; reflexivity. Qed.

Lemma member_list_log v w log : exists r, member_list v w log = (log, r).
Proof.
  unfold member_list, mbind, M_bind. destruct (prop_log v "result" w log) as [[r | e] ->];
    eexists; reflexivity.
Qed.

(** X2. Whatever the names and whatever the outcome, one call of the
    resolver makes exactly one call to the service: the listing of the
    members of the group. *)
Theorem resolver_lists_members_once CODE groupId names w log :
  exists r,
    resolveUserIdsByName toLowerCase (Server.splidApi CODE) groupId names w log
    = (log ++ [PersonGetByGroup groupId], r).
Proof.
  unfold resolveUserIdsByName. cbn [listMembers Server.splidApi].
  unfold Server.listMembers, mbind, M_bind, perform.
  destruct (w log (PersonGetByGroup groupId)) as [members | e]; [ | eexists; reflexivity].
  destruct (member_list_log members w (log ++ [PersonGetByGroup groupId])) as [[lst | e] ->];
    [ | eexists; reflexivity].
  destruct (iterate_log lst w (log ++ [PersonGetByGroup groupId])) as [[items | e] ->];
    [ | eexists; reflexivity].
  apply resolve_names_log.
Qed.

Variable splid : SplidApi.

(** X3. The resolver stops at the first name that neither the index nor
    [Object.prototype] has: it throws an error that names exactly that
    name, whatever names follow, and returns no mapping for the names
    before it. *)
Theorem resolver_fails_at_first_unknown groupId known n rest members items w log log1 :
  listMembers splid groupId w log = (log1, Ok members) ->
  (member_list members ≫= iterate) w log1 = (log1, Ok items) ->
  Forall (fun p => truthy_slot (dict_get (index_members toLowerCase items) (toLowerCase p))
                   = true) known ->
  index_members toLowerCase items !! toLowerCase n = None ->
  inherited (toLowerCase n) = false ->
  resolveUserIdsByName toLowerCase splid groupId (known ++ n :: rest) w log
  = (log1, Throw (Error ("Unknown member name: " +:+ n))).
Proof.
  intros Hl Hm Hk Hn Hp.
  rewrite (resolveUserIdsByName_run _ _ _ _ _ _ _ _ _ Hl Hm).
  apply resolve_names_first_unknown; assumption.
Qed.

(** X4. When two listed members have the same lower-cased name, the
    one listed last is the one every request for that name resolves to. *)
Theorem resolver_last_member_wins groupId before fields after name gid n members w log log1 :
  toLowerCase "__proto__" = "__proto__" ->
  listMembers splid groupId w log = (log1, Ok members) ->
  (member_list members ≫= iterate) w log1 = (log1, Ok (before ++ VObj fields :: after)) ->
  get (VObj fields) "name" = VStr name ->
  get (VObj fields) "GlobalId" = VStr gid ->
  gid ≠ "" ->
  Forall (fun m => forall name' gid',
              get m "name" = VStr name' -> get m "GlobalId" = VStr gid' ->
              toLowerCase name' ≠ toLowerCase name) after ->
  toLowerCase n = toLowerCase name ->
  toLowerCase name ≠ "__proto__" ->
  resolveUserIdsByName toLowerCase splid groupId [n] w log = (log1, Ok {[ n := Own gid ]}).
Proof.
  intros Hproto Hl Hm Hname Hgid Hg Hafter Hn Hk.
  rewrite (resolveUserIdsByName_run _ _ _ _ _ _ _ _ _ Hl Hm).
  pose proof (index_members_member toLowerCase before fields after name gid
                Hname Hgid Hk Hafter) as Hi.
  rewrite <- Hn in Hi. rewrite (resolve_names_present _ _ _ _ _ _ Hi Hg).
  cbn [resolve_names]. unfold dict_set. case_bool_decide as Hk'; [ | reflexivity].
  exfalso. subst n. rewrite Hproto in Hn. auto.
Qed.

Lemma resolve_names_all_present idx names : forall resolved w log,
  idx !! "__proto__" = None -> toLowerCase "__proto__" = "__proto__" ->
  Forall (fun n => exists gid, idx !! toLowerCase n = Some gid /\ gid ≠ "") names ->
  exists out,
    resolve_names toLowerCase idx names resolved w log = (log, Ok out)
    /\ (forall n gid, n ∈ names -> idx !! toLowerCase n = Some gid -> out !! n = Some (Own gid))
    /\ (forall k, k ∉ names -> out !! k = resolved !! k).
Proof.
  induction names as [ | n names IH]; intros resolved w log Hidx Hproto Hall.
  - exists resolved. split; [reflexivity | ]. split; [ | reflexivity].
    intros n gid Hin. apply elem_of_nil in Hin. contradiction.
  - apply Forall_cons in Hall. destruct Hall as [(g & Hg & Hg0) Hall].
    rewrite (resolve_names_present _ _ _ _ _ _ Hg Hg0).
    destruct (IH (dict_set resolved n (Own g)) w log Hidx Hproto Hall) as (out & Hrun & Hin & Hout).
    exists out. split; [exact Hrun | ]. split.
    + intros m gid Hm Hgid. destruct (decide (m ∈ names)) as [Hmn | Hmn]; [auto | ].
      apply elem_of_cons in Hm. destruct Hm as [-> | Hm]; [ | contradiction].
      rewrite (Hout n Hmn). unfold dict_set. case_bool_decide as Hk.
      * exfalso. subst n. rewrite Hproto, Hidx in Hg. discriminate Hg.
      * rewrite lookup_insert_eq. congruence.
    + intros k Hk. rewrite Hout by (intros Hk'; apply Hk; right; exact Hk').
      unfold dict_set. case_bool_decide; [reflexivity | ].
      apply lookup_insert_ne. intros ->. apply Hk. left.
Qed.

(** X5. When the index has every requested name with a non-empty
    identifier, the resolver returns a mapping that sends each requested
    name, as it was written, to the identifier of its lower-cased form, and
    that has no other key. *)
Theorem resolver_maps_requested_names groupId names members items w log log1 :
  toLowerCase "__proto__" = "__proto__" ->
  listMembers splid groupId w log = (log1, Ok members) ->
  (member_list members ≫= iterate) w log1 = (log1, Ok items) ->
  Forall (fun n => exists gid,
              index_members toLowerCase items !! toLowerCase n = Some gid /\ gid ≠ "")
         names ->
  exists resolved,
    resolveUserIdsByName toLowerCase splid groupId names w log = (log1, Ok resolved)
    /\ (forall n gid, n ∈ names ->
          index_members toLowerCase items !! toLowerCase n = Some gid ->
          resolved !! n = Some (Own gid))
    /\ (forall k, k ∉ names -> resolved !! k = None).
Proof.
  intros Hproto Hl Hm Hall.
  rewrite (resolveUserIdsByName_run _ _ _ _ _ _ _ _ _ Hl Hm).
  destruct (resolve_names_all_present (index_members toLowerCase items) names ∅ w log1
              (index_members_proto toLowerCase items) Hproto Hall) as (out & Hrun & Hin & Hout).
  exists out. split; [exact Hrun | ]. split; [exact Hin | ].
  intros k Hk. rewrite (Hout k Hk). apply lookup_empty.
Qed.

End Resolver.
Lemma index_ids_come_from_members_witness :
  exists m name,
    m ∈ [Example.alice; Example.bob] /\ truthy m = true /\ get m "name" = VStr name
    /\ get m "GlobalId" = VStr "id-bob" /\ Example.ascii_lower name = "bob".
Proof.
  apply (index_ids_come_from_members Example.ascii_lower [Example.alice; Example.bob]
           "bob" "id-bob").
  vm_compute. reflexivity.
Defined.

Lemma resolver_fails_at_first_unknown_witness :
  resolveUserIdsByName Example.ascii_lower (Server.splidApi "CODE") (VStr "g1")
    (["Alice"] ++ "Carol" :: ["Bob"]) Example.service []
  = ([PersonGetByGroup (VStr "g1")], Throw (Error ("Unknown member name: " +:+ "Carol"))).
Proof.
  apply (resolver_fails_at_first_unknown Example.ascii_lower (Server.splidApi "CODE")
           (VStr "g1") ["Alice"] "Carol" ["Bob"] Sample.the_listing
           [Example.alice; Example.bob] Example.service []
           [PersonGetByGroup (VStr "g1")]).
  - reflexivity.
  - reflexivity.
  - apply List.Forall_cons; [vm_compute; reflexivity | apply List.Forall_nil].
  - vm_compute. reflexivity.
  - reflexivity.
Defined.

Lemma resolver_last_member_wins_witness :
  resolveUserIdsByName Example.ascii_lower (Server.splidApi "CODE") (VStr "g1") ["alice"]
    (Sample.service_listing [Sample.alice_before; Example.bob; Example.alice]) []
  = ([PersonGetByGroup (VStr "g1")], Ok {[ "alice" := Own "id-alice" ]}).
Proof.
  apply (resolver_last_member_wins Example.ascii_lower (Server.splidApi "CODE") (VStr "g1")
           [Sample.alice_before; Example.bob]
           [("name", VStr "Alice"); ("GlobalId", VStr "id-alice")] [] "Alice" "id-alice"
           "alice" (VArr [Sample.alice_before; Example.bob; Example.alice])
           (Sample.service_listing [Sample.alice_before; Example.bob; Example.alice]) []
           [PersonGetByGroup (VStr "g1")]).
  - reflexivity.
  - reflexivity.
  - reflexivity.
  - reflexivity.
  - reflexivity.
  - discriminate.
  - apply List.Forall_nil.
  - reflexivity.
  - discriminate.
Defined.

Lemma resolver_maps_requested_names_witness :
  exists resolved,
    resolveUserIdsByName Example.ascii_lower (Server.splidApi "CODE") (VStr "g1")
      ["Alice"; "BOB"] Example.service []
    = ([PersonGetByGroup (VStr "g1")], Ok resolved)
    /\ (forall n gid, n ∈ ["Alice"; "BOB"] ->
          index_members Example.ascii_lower [Example.alice; Example.bob]
            !! Example.ascii_lower n = Some gid ->
          resolved !! n = Some (Own gid))
    /\ (forall k, k ∉ ["Alice"; "BOB"] -> resolved !! k = None).
Proof.
  apply (resolver_maps_requested_names Example.ascii_lower (Server.splidApi "CODE")
           (VStr "g1") ["Alice"; "BOB"] Sample.the_listing [Example.alice; Example.bob]
           Example.service [] [PersonGetByGroup (VStr "g1")]).
  - reflexivity.
  - reflexivity.
  - reflexivity.
  - apply List.Forall_cons.
    + exists "id-alice". split; [vm_compute; reflexivity | discriminate].
    + apply List.Forall_cons; [ | apply List.Forall_nil].
      exists "id-bob". split; [vm_compute; reflexivity | discriminate].
Defined.

End ResolverMore.

(** ** The [createExpense] handler *)

Module ExpenseMore.
Import Mcp ResolverFacts.

Lemma dedupe_step_elem (l : list string) : forall seen x,
  x ∈ fold_left (fun seen x => if bool_decide (x ∈ seen) then seen else seen ++ [x]) l seen
  <-> x ∈ seen \/ x ∈ l.
Proof.
  induction l as [ | y l IH]; intros seen x; cbn [fold_left].
  - split; [auto | intros [H | H]; [exact H | apply elem_of_nil in H; contradiction]].
  - rewrite IH. case_bool_decide as Hy.
    + rewrite elem_of_cons. split; [tauto | ]. intros [H | [-> | H]]; auto.
    + rewrite elem_of_app, list_elem_of_singleton, elem_of_cons. tauto.
Qed.

Lemma dedupe_step_NoDup (l : list string) : forall seen,
  NoDup seen ->
  NoDup (fold_left (fun seen x => if bool_decide (x ∈ seen) then seen else seen ++ [x]) l seen).
Proof.
  induction l as [ | y l IH]; intros seen Hs; cbn [fold_left]; [exact Hs | ].
  apply IH. case_bool_decide as Hy; [exact Hs | ].
  apply NoDup_app. split; [exact Hs | ]. split.
  - intros x Hx Hx'. apply list_elem_of_singleton in Hx'. subst x. contradiction.
  - apply NoDup_singleton.
Qed.

Lemma dedupe_step_fresh (l : list string) : forall seen,
  NoDup (seen ++ l) ->
  fold_left (fun seen x => if bool_decide (x ∈ seen) then seen else seen ++ [x]) l seen
  = seen ++ l.
Proof.
  induction l as [ | y l IH]; intros seen H; cbn [fold_left].
  - rewrite app_nil_r. reflexivity.
  - assert (Hy : y ∉ seen).
    { apply NoDup_app in H. destruct H as (_ & H & _). intros Hin. apply (H y Hin). left. }
    rewrite bool_decide_eq_false_2 by exact Hy.
    rewrite IH by (rewrite <- app_assoc; exact H).
    rewrite <- app_assoc. reflexivity.
Qed.

(** X6. [Array.from(new Set(l))]: the result has no duplicates and
    exactly the elements of [l]; a list without duplicates comes back
    unchanged, in the same order, so that deduplicating twice is
    deduplicating once. *)
Theorem dedupe_first_occurrences (l : list string) :
  NoDup (dedupe l)
  /\ (forall x, x ∈ dedupe l <-> x ∈ l)
  /\ (NoDup l -> dedupe l = l)
  /\ dedupe (dedupe l) = dedupe l.
Proof.
  assert (Hnd : NoDup (dedupe l)) by (apply dedupe_step_NoDup, NoDup_nil_2).
  assert (Hfresh : forall k : list string, NoDup k -> dedupe k = k).
  { intros k Hk. unfold dedupe. rewrite dedupe_step_fresh; [reflexivity | exact Hk]. }
  split; [exact Hnd | ]. split; [ | split; [apply Hfresh | apply Hfresh, Hnd]].
  intros x. unfold dedupe. rewrite dedupe_step_elem. split; [ | auto].
  intros [H | H]; [apply elem_of_nil in H; contradiction | exact H].
Qed.

Section Expense.

Variable toLowerCase : string -> string.
Variable Number_toString : number -> string.
Variable JSON_stringify : value -> value.
Variable splid : SplidApi.

Lemma missing_names_nil {A} (userId name : A -> option string) (l : list A) :
  Forall (fun p => truthy_opt (userId p) = true) l -> missing_names userId name l = [].
Proof.
  unfold missing_names. induction 1 as [ | p l Hp _ IH]; [reflexivity | ].
  cbn [omap list_omap]. rewrite Hp. cbn [negb andb]. exact IH.
Qed.

Lemma normalize_with_userId {A} (userId name : A -> option string) (amount : A -> number)
    (nameToId : gmap string (slot string)) (l : list A) :
  Forall (fun p => truthy_opt (userId p) = true) l ->
  (fun p => (normalize_id nameToId (userId p) (name p), amount p)) <$> l
  = (fun p => (Own (default "" (userId p)), amount p)) <$> l
  /\ existsb (fun x : slot string * number => negb (truthy_slot x.1))
       ((fun p => (Own (default "" (userId p)), amount p)) <$> l) = false.
Proof.
  induction 1 as [ | p l Hp _ [IH1 IH2]]; [split; reflexivity | ].
  destruct (truthy_opt_true _ Hp) as (s & Hs & Hs0).
  cbn [fmap list_fmap existsb fst]. rewrite Hs. cbn [normalize_id from_option Datatypes.id].
  rewrite (truthy_slot_Own s Hs0). cbn [negb orb]. split; [ | exact IH2].
  f_equal. exact IH1.
Qed.

(** X7. When the shares pass the check and every payer and every
    profiteer carries a non-empty [userId], the handler makes one call,
    [splid.createExpense], without listing the members: it forwards each
    [userId] as it is, whatever [name] comes with it, and as currency the
    caller's [currencyCode] if given (even empty), else the group's, else
    [EUR]. *)
Theorem createExpense_with_userIds args group :
  share_sum_off (share_sum (ce_profiteers args)) = false ->
  Forall (fun p => truthy_opt (p_userId p) = true) (ce_payers args) ->
  Forall (fun p => truthy_opt (q_userId p) = true) (ce_profiteers args) ->
  forall w log,
    createExpense_in_group toLowerCase Number_toString JSON_stringify splid args group w log
    = (result ← createExpense splid
         {| e_groupId := id group;
            e_title := ce_title args;
            e_amount := ce_amount args;
            e_currencyCode :=
              match ce_currencyCode args with
              | Some c => VStr c
              | None => if nullish (currencyCode group) then VStr "EUR" else currencyCode group
              end;
            e_payers :=
              (fun p => (Own (default "" (p_userId p)), p_amount p)) <$> ce_payers args;
            e_profiteers :=
              (fun p => (Own (default "" (q_userId p)), q_share p)) <$> ce_profiteers args |};
       mret (text_result (JSON_stringify result))) w log.
Proof.
  intros Hoff Hp Hq w log. unfold createExpense_in_group. rewrite Hoff.
  unfold createExpense_checked.
  rewrite (missing_names_nil _ _ _ Hp), (missing_names_nil _ _ _ Hq).
  cbn [app]. change (dedupe []) with (@nil string).
  rewrite bool_decide_eq_true_2 by reflexivity.
  unfold mbind at 1, M_bind at 1. cbn [mret M_ret].
  destruct (normalize_with_userId p_userId p_name p_amount ∅ _ Hp) as [-> ->].
  destruct (normalize_with_userId q_userId q_name q_share ∅ _ Hq) as [-> ->].
  cbn [orb]. destruct (ce_currencyCode args) as [c | ]; reflexivity.
Qed.

Lemma existsb_empty_userId {A} (userId name : A -> option string) (amount : A -> number)
    (nameToId : gmap string (slot string)) (l : list A) :
  Exists (fun p => userId p = Some "") l ->
  existsb (fun x : slot string * number => negb (truthy_slot x.1))
    ((fun p => (normalize_id nameToId (userId p) (name p), amount p)) <$> l) = true.
Proof.
  induction 1 as [p l Hp | p l _ IH]; cbn [fmap list_fmap existsb fst].
  - rewrite Hp. reflexivity.
  - fold (@fmap list _ _ _ (fun p => (normalize_id nameToId (userId p) (name p), amount p)) l).
    rewrite IH. apply orb_true_r.
Qed.

(** X8. A payer or profiteer whose [userId] is the empty string is never
    given an identifier, even when it has a name that resolves: [??] keeps
    the empty string. Whenever the resolution of the names returns, the
    handler then returns the error result "Failed to resolve all user names
    to IDs" and does not call [splid.createExpense]. *)
Theorem createExpense_empty_userId args group currency :
  Exists (fun p => p_userId p = Some "") (ce_payers args)
  \/ Exists (fun p => q_userId p = Some "") (ce_profiteers args) ->
  forall w log,
    createExpense_checked toLowerCase JSON_stringify splid args group currency w log
    = let names := dedupe (missing_names p_userId p_name (ce_payers args)
                           ++ missing_names q_userId q_name (ce_profiteers args)) in
      match (if bool_decide (names = [])
             then mret ∅
             else resolveUserIdsByName toLowerCase splid (id group) names) w log with
      | (log', Ok _) => (log', Ok (error_result "Failed to resolve all user names to IDs"))
      | (log', Throw e) => (log', Throw e)
      end.
Proof.
  intros H w log. unfold createExpense_checked. cbv zeta.
  unfold mbind at 1, M_bind at 1.
  match goal with |- context [match ?step w log with _ => _ end] =>
    destruct (step w log) as [log' [nameToId | e]]; [ | reflexivity] end.
  destruct H as [H | H].
  - rewrite (existsb_empty_userId p_userId p_name p_amount nameToId _ H). reflexivity.
  - rewrite (existsb_empty_userId q_userId q_name q_share nameToId _ H).
    rewrite orb_true_r. reflexivity.
Qed.

Lemma resolve_names_Ok idx names : forall resolved w log log' out,
  resolve_names toLowerCase idx names resolved w log = (log', Ok out) ->
  resolved !! "__proto__" = None ->
  (forall k v, resolved !! k = Some v -> truthy_slot v = true) ->
  out !! "__proto__" = None
  /\ (forall k v, out !! k = Some v -> truthy_slot v = true)
  /\ (forall n, n ∈ names \/ is_Some (resolved !! n) -> n ≠ "__proto__" -> is_Some (out !! n)).
Proof.
  induction names as [ | n names IH]; intros resolved w log log' out Hrun Hproto Hval.
  - cbn [resolve_names] in Hrun. injection Hrun as <- <-.
    split; [exact Hproto | ]. split; [exact Hval | ].
    intros n [Hn | Hn] _; [apply elem_of_nil in Hn; contradiction | exact Hn].
  - cbn [resolve_names] in Hrun.
    destruct (truthy_slot (dict_get idx (toLowerCase n))) eqn:Ht; [ | discriminate Hrun].
    apply IH in Hrun.
    + destruct Hrun as (H1 & H2 & H3). split; [exact H1 | ]. split; [exact H2 | ].
      intros m Hm Hmp. apply H3; [ | exact Hmp].
      unfold dict_set. case_bool_decide as Hk.
      * destruct Hm as [Hm | Hm]; [ | auto].
        apply elem_of_cons in Hm. destruct Hm as [-> | Hm]; [contradiction | auto].
      * destruct Hm as [Hm | Hm].
        -- apply elem_of_cons in Hm. destruct Hm as [-> | Hm]; [ | auto].
           right. rewrite lookup_insert_eq. eauto.
        -- right. destruct (decide (n = m)) as [-> | Hne].
           ++ rewrite lookup_insert_eq. eauto.
           ++ rewrite lookup_insert_ne by exact Hne. exact Hm.
    + apply dict_set_proto, Hproto.
    + intros k v. unfold dict_set. case_bool_decide; [apply Hval | ].
      destruct (decide (n = k)) as [-> | Hne].
      * rewrite lookup_insert_eq. intros [= <-]. exact Ht.
      * rewrite lookup_insert_ne by exact Hne. apply Hval.
Qed.

Lemma missing_names_elem {A} (userId name : A -> option string) (l : list A) p n :
  p ∈ l -> userId p = None -> name p = Some n -> truthy_opt (name p) = true ->
  n ∈ missing_names userId name l.
Proof.
  intros Hin Hu Hn Ht. unfold missing_names. apply list_elem_of_omap.
  exists p. split; [exact Hin | ]. rewrite Hu, Ht. exact Hn.
Qed.

Lemma normalized_truthy {A} (userId name : A -> option string) (amount : A -> number)
    (nameToId : gmap string (slot string)) (names : list string) (l : list A) :
  nameToId !! "__proto__" = None ->
  (forall k v, nameToId !! k = Some v -> truthy_slot v = true) ->
  (forall n, n ∈ names -> n ≠ "__proto__" -> is_Some (nameToId !! n)) ->
  (forall p n, p ∈ l -> userId p = None -> name p = Some n ->
               truthy_opt (name p) = true -> n ∈ names) ->
  Forall (fun p => truthy_opt (userId p) = true
                   \/ (userId p = None /\ truthy_opt (name p) = true)) l ->
  Forall (fun x : slot string * number => truthy_slot x.1 = true)
    ((fun p => (normalize_id nameToId (userId p) (name p), amount p)) <$> l).
Proof.
  intros Hproto Hval Hsome Hnames Hall. apply Forall_fmap. apply Forall_forall.
  intros p Hp. rewrite Forall_forall in Hall. specialize (Hall p Hp).
  unfold compose. cbn [fst].
  destruct Hall as [Hu | [Hu Hn]].
  - destruct (truthy_opt_true _ Hu) as (s & Hs & Hs0). rewrite Hs.
    apply truthy_slot_Own, Hs0.
  - destruct (truthy_opt_true _ Hn) as (n & Hname & _).
    pose proof (Hnames p n Hp Hu Hname Hn) as Hin.
    rewrite Hu, Hname. cbn [normalize_id from_option Datatypes.id]. unfold dict_get.
    destruct (decide (n = "__proto__")) as [-> | Hne].
    + rewrite Hproto. reflexivity.
    + destruct (Hsome n Hin Hne) as [v Hv]. rewrite Hv. apply (Hval n v Hv).
Qed.

Lemma existsb_all_truthy (l : list (slot string * number)) :
  Forall (fun x => truthy_slot x.1 = true) l ->
  existsb (fun x => negb (truthy_slot x.1)) l = false.
Proof.
  induction 1 as [ | x l Hx _ IH]; [reflexivity | ].
  cbn [existsb]. rewrite Hx, IH. reflexivity.
Qed.

(** X9. When every payer and every profiteer has either a non-empty
    [userId] or no [userId] and a non-empty name, the check after the
    resolution never fires: whenever the resolution of the names returns a
    mapping, every party gets a truthy identifier and the handler goes on
    to [splid.createExpense] with the normalized parties. *)
Theorem createExpense_named_parties args group currency w log log' nameToId :
  Forall (fun p => truthy_opt (p_userId p) = true
                   \/ (p_userId p = None /\ truthy_opt (p_name p) = true))
         (ce_payers args) ->
  Forall (fun p => truthy_opt (q_userId p) = true
                   \/ (q_userId p = None /\ truthy_opt (q_name p) = true))
         (ce_profiteers args) ->
  let names := dedupe (missing_names p_userId p_name (ce_payers args)
                       ++ missing_names q_userId q_name (ce_profiteers args)) in
  (if bool_decide (names = [])
   then mret ∅
   else resolveUserIdsByName toLowerCase splid (id group) names) w log
  = (log', Ok nameToId) ->
  let payers :=
    (fun p => (normalize_id nameToId (p_userId p) (p_name p), p_amount p))
      <$> ce_payers args in
  let profiteers :=
    (fun p => (normalize_id nameToId (q_userId p) (q_name p), q_share p))
      <$> ce_profiteers args in
  createExpense_checked toLowerCase JSON_stringify splid args group currency w log
  = (result ← createExpense splid
       {| e_groupId := id group; e_title := ce_title args; e_amount := ce_amount args;
          e_currencyCode := currency; e_payers := payers; e_profiteers := profiteers |};
     mret (text_result (JSON_stringify result))) w log'
  /\ Forall (fun x => truthy_slot x.1 = true) payers
  /\ Forall (fun x => truthy_slot x.1 = true) profiteers.
Proof.
  intros Hp Hq names Hstep payers profiteers.
  assert (Hfacts : nameToId !! "__proto__" = None
                   /\ (forall k v, nameToId !! k = Some v -> truthy_slot v = true)
                   /\ (forall n, n ∈ names -> n ≠ "__proto__" -> is_Some (nameToId !! n))).
  { case_bool_decide as Hnil.
    - injection Hstep as <- <-. split; [apply lookup_empty | ].
      split; [intros k v H; rewrite lookup_empty in H; discriminate H | ].
      intros n Hn. rewrite Hnil in Hn. apply elem_of_nil in Hn. contradiction.
    - unfold resolveUserIdsByName, mbind, M_bind in Hstep.
      destruct (listMembers splid (id group) w log) as [l1 [members | e]]; [ | discriminate].
      destruct (member_list members w l1) as [l2 [lst | e]]; [ | discriminate].
      destruct (iterate lst w l2) as [l3 [items | e]]; [ | discriminate].
      apply resolve_names_Ok in Hstep.
      + destruct Hstep as (H1 & H2 & H3). split; [exact H1 | ]. split; [exact H2 | ].
        intros n Hn. apply H3. left. exact Hn.
      + apply lookup_empty.
      + intros k v H. rewrite lookup_empty in H. discriminate H. }
  destruct Hfacts as (H1 & H2 & H3).
  assert (Hin : forall n, n ∈ missing_names p_userId p_name (ce_payers args)
                          \/ n ∈ missing_names q_userId q_name (ce_profiteers args) ->
                          n ∈ names).
  { intros n Hn. unfold names, dedupe. apply dedupe_step_elem. right.
    apply elem_of_app. exact Hn. }
  assert (Hpay : Forall (fun x => truthy_slot x.1 = true) payers).
  { apply (normalized_truthy p_userId p_name p_amount nameToId names); try assumption.
    intros p n Hpin Hu Hn Ht. apply Hin. left.
    apply (missing_names_elem _ _ _ p n); assumption. }
  assert (Hpro : Forall (fun x => truthy_slot x.1 = true) profiteers).
  { apply (normalized_truthy q_userId q_name q_share nameToId names); try assumption.
    intros p n Hpin Hu Hn Ht. apply Hin. right.
    apply (missing_names_elem _ _ _ p n); assumption. }
  split; [ | split; assumption].
  unfold createExpense_checked. fold names.
  unfold mbind at 1, M_bind at 1. rewrite Hstep. fold payers profiteers.
  rewrite (existsb_all_truthy _ Hpay), (existsb_all_truthy _ Hpro). reflexivity.
Qed.

Lemma bind_Ok_inv {A B} (m : M A) (f : A -> M B) w log log' b :
  (m ≫= f) w log = (log', Ok b) ->
  exists l1 a, m w log = (l1, Ok a) /\ f a w l1 = (log', Ok b).
Proof.
  unfold mbind, M_bind. destruct (m w log) as [l1 [a | e]]; [eauto | discriminate].
Qed.

(** X10. The only results flagged [isError] that [createExpense]
    returns are the share-sum message and "Failed to resolve all user names
    to IDs"; [listEntries], [getGroupSummary] and [whoami] never return a
    result flagged [isError]: when the group, the members or the service
    fail, they throw. *)
Theorem tools_error_results w log log' r :
  (forall args,
      createExpense_handler toLowerCase Number_toString JSON_stringify splid args w log
      = (log', Ok r) ->
      isError r = true ->
      r = error_result ("Shares must sum to 1. Current sum: "
                        +:+ Number_toString (share_sum (ce_profiteers args)))
      \/ r = error_result "Failed to resolve all user names to IDs")
  /\ (forall args,
      listEntries_handler JSON_stringify splid args w log = (log', Ok r) -> isError r = false)
  /\ (forall args,
      getGroupSummary_handler JSON_stringify splid args w log = (log', Ok r) ->
      isError r = false)
  /\ (whoami JSON_stringify splid w log = (log', Ok r) -> isError r = false).
Proof.
  repeat match goal with |- _ /\ _ => split end.
  - intros args Hrun Herr. unfold createExpense_handler in Hrun.
    apply bind_Ok_inv in Hrun. destruct Hrun as (l1 & group & _ & Hrun).
    unfold createExpense_in_group in Hrun.
    destruct (share_sum_off _); [injection Hrun as <- <-; left; reflexivity | ].
    unfold createExpense_checked in Hrun.
    apply bind_Ok_inv in Hrun. destruct Hrun as (l2 & nameToId & _ & Hrun).
    destruct (existsb _ _ || existsb _ _); [injection Hrun as <- <-; right; reflexivity | ].
    apply bind_Ok_inv in Hrun. destruct Hrun as (l3 & result & _ & Hrun).
    injection Hrun as <- <-. discriminate Herr.
  - intros args Hrun. unfold listEntries_handler in Hrun.
    apply bind_Ok_inv in Hrun. destruct Hrun as (l1 & group & _ & Hrun).
    unfold listEntries_in_group in Hrun.
    apply bind_Ok_inv in Hrun. destruct Hrun as (l2 & entries & _ & Hrun).
    injection Hrun as <- <-. reflexivity.
  - intros args Hrun. unfold getGroupSummary_handler in Hrun.
    apply bind_Ok_inv in Hrun. destruct Hrun as (l1 & group & _ & Hrun).
    unfold getGroupSummary_in_group in Hrun.
    apply bind_Ok_inv in Hrun. destruct Hrun as (l2 & summary & _ & Hrun).
    injection Hrun as <- <-. reflexivity.
  - intros Hrun. unfold whoami in Hrun.
    apply bind_Ok_inv in Hrun. destruct Hrun as (l1 & group & _ & Hrun).
    apply bind_Ok_inv in Hrun. destruct Hrun as (l2 & members & _ & Hrun).
    injection Hrun as <- <-. reflexivity.
Qed.

End Expense.

Lemma createExpense_with_userIds_witness :
  createExpense_in_group Example.ascii_lower Example.number_repr Example.stringify
    (Server.splidApi "CODE") Sample.args_by_ids Sample.the_group Example.service []
  = ([EntryExpenseCreate
        {| Client.o_groupId := VStr "g1"; Client.o_title := "Dinner";
           Client.o_payers := [(Own "u1", Example.lit_12_5)];
           Client.o_currencyCode := VStr "EUR" |}
        {| Client.i_amount := Example.lit_12_5;
           Client.i_profiteers := [(Own "u2", Example.lit_0_6);
                                   (Own "u1", Example.lit_0_4)] |}],
     Ok (text_result (Example.stringify (VObj [("created", VBool true)])))).
Proof.
  rewrite (createExpense_with_userIds Example.ascii_lower Example.number_repr
             Example.stringify (Server.splidApi "CODE") Sample.args_by_ids Sample.the_group).
  - reflexivity.
  - vm_compute. reflexivity.
  - apply List.Forall_cons; [reflexivity | apply List.Forall_nil].
  - apply List.Forall_cons; [reflexivity | ].
    apply List.Forall_cons; [reflexivity | apply List.Forall_nil].
Defined.

Lemma createExpense_empty_userId_witness :
  createExpense_checked Example.ascii_lower Example.stringify (Server.splidApi "CODE")
    Sample.args_empty_userId Sample.the_group (VStr "EUR") Example.service []
  = ([PersonGetByGroup (VStr "g1")],
     Ok (error_result "Failed to resolve all user names to IDs")).
Proof.
  rewrite (createExpense_empty_userId Example.ascii_lower Example.stringify
             (Server.splidApi "CODE") Sample.args_empty_userId Sample.the_group (VStr "EUR")).
  - vm_compute. reflexivity.
  - left. apply List.Exists_cons_hd. reflexivity.
Defined.

Lemma createExpense_named_parties_witness :
  createExpense_checked Example.ascii_lower Example.stringify (Server.splidApi "CODE")
    Sample.args_by_names Sample.the_group (VStr "EUR") Example.service []
  = ([PersonGetByGroup (VStr "g1");
      EntryExpenseCreate
        {| Client.o_groupId := VStr "g1"; Client.o_title := "Dinner";
           Client.o_payers := [(Own "id-alice", Example.lit_12_5)];
           Client.o_currencyCode := VStr "EUR" |}
        {| Client.i_amount := Example.lit_12_5;
           Client.i_profiteers := [(Own "id-bob", Example.lit_0_6);
                                   (Own "id-alice", Example.lit_0_4)] |}],
     Ok (text_result (Example.stringify (VObj [("created", VBool true)])))).
Proof.
  destruct (createExpense_named_parties Example.ascii_lower Example.stringify
              (Server.splidApi "CODE") Sample.args_by_names Sample.the_group (VStr "EUR")
              Example.service [] [PersonGetByGroup (VStr "g1")]
              (<["Bob" := Own "id-bob"]> (<["Alice" := Own "id-alice"]> ∅)))
    as [Hrun _].
  - apply List.Forall_cons; [right; split; reflexivity | apply List.Forall_nil].
  - apply List.Forall_cons; [right; split; reflexivity | ].
    apply List.Forall_cons; [right; split; reflexivity | apply List.Forall_nil].
  - vm_compute. reflexivity.
  - rewrite Hrun. vm_compute. reflexivity.
Defined.

Lemma tools_error_results_witness :
  let r := error_result "Failed to resolve all user names to IDs" in
  r = error_result ("Shares must sum to 1. Current sum: "
                    +:+ Example.number_repr (share_sum (ce_profiteers Sample.args_empty_userId)))
  \/ r = error_result "Failed to resolve all user names to IDs".
Proof.
  intros r.
  apply (proj1 (tools_error_results Example.ascii_lower Example.number_repr Example.stringify
                  (Server.splidApi "CODE") Example.service []
                  [GroupGetByInviteCode "CODE"; GroupInfoGetOneByGroup (VStr "g1");
                   PersonGetByGroup (VStr "g1")] r) Sample.args_empty_userId).
  - vm_compute. reflexivity.
  - reflexivity.
Defined.

End ExpenseMore.

(** ** The schemas *)

Module SchemaMore.
Import Mcp.

Lemma check_Some b : check b = Some tt -> b = true.
Proof. destruct b; [reflexivity | discriminate]. Qed.

Lemma bind_Some {A B} (o : option A) (f : A -> option B) b :
  o ≫= f = Some b -> exists a, o = Some a /\ f a = Some b.
Proof. destruct o as [a | ]; [eauto | discriminate]. Qed.

Lemma z_positive_Some v n :
  z_positive v = Some n -> v = VNum n /\ Num.is_nan n = false /\ Num.gtb n Num.zero = true.
Proof.
  unfold z_positive, z_number. destruct v as [ | | | x | | | ]; try discriminate.
  destruct (Num.is_nan x) eqn:En; [discriminate | ]. cbn [mbind option_bind].
  destruct (Num.gtb x Num.zero) eqn:Eg; [ | discriminate].
  cbn [check mbind option_bind]. intros [= <-]. auto.
Qed.

Lemma z_share_Some_inv v n :
  z_share v = Some n ->
  v = VNum n /\ Num.is_nan n = false /\ Num.gtb n Num.zero = true /\ Num.leb n Num.one = true.
Proof.
  unfold z_share, z_number. destruct v as [ | | | x | | | ]; try discriminate.
  destruct (Num.is_nan x) eqn:En; [discriminate | ]. cbn [mbind option_bind].
  destruct (Num.gtb x Num.zero) eqn:Eg; [ | discriminate]. cbn [check mbind option_bind].
  destruct (Num.leb x Num.one) eqn:El; [ | discriminate].
  cbn [check mbind option_bind]. intros [= <-]. auto.
Qed.

Lemma PayerLoose_parse_Some v p :
  PayerLoose_parse v = Some p ->
  Num.gtb (p_amount p) Num.zero = true
  /\ (truthy_opt (p_userId p) = true \/ truthy_opt (p_name p) = true).
Proof.
  unfold PayerLoose_parse. intros H.
  apply bind_Some in H. destruct H as (_ & _ & H).
  apply bind_Some in H. destruct H as (userId & _ & H).
  apply bind_Some in H. destruct H as (name & _ & H).
  apply bind_Some in H. destruct H as (amount & Ha & H).
  apply bind_Some in H. destruct H as ([] & Hc & H). injection H as <-.
  apply z_positive_Some in Ha. apply check_Some, orb_true_iff in Hc.
  cbn [p_amount p_userId p_name]. tauto.
Qed.

Lemma ProfiteerLoose_parse_Some v p :
  ProfiteerLoose_parse v = Some p ->
  Num.gtb (q_share p) Num.zero = true /\ Num.leb (q_share p) Num.one = true
  /\ (truthy_opt (q_userId p) = true \/ truthy_opt (q_name p) = true).
Proof.
  unfold ProfiteerLoose_parse. intros H.
  apply bind_Some in H. destruct H as (_ & _ & H).
  apply bind_Some in H. destruct H as (userId & _ & H).
  apply bind_Some in H. destruct H as (name & _ & H).
  apply bind_Some in H. destruct H as (share & Ha & H).
  apply bind_Some in H. destruct H as ([] & Hc & H). injection H as <-.
  apply z_share_Some_inv in Ha. apply check_Some, orb_true_iff in Hc.
  cbn [q_share q_userId q_name]. tauto.
Qed.

Lemma z_array_min1_Some {A} (item : value -> option A) (P : A -> Prop) v l :
  (forall x a, item x = Some a -> P a) -> z_array_min1 item v = Some l ->
  l ≠ [] /\ Forall P l.
Proof.
  intros HP. unfold z_array_min1. destruct v as [ | | | | | items | ]; try discriminate.
  intros H. apply bind_Some in H. destruct H as (l' & Hm & H).
  apply bind_Some in H. destruct H as ([] & Hc & H). injection H as <-.
  apply check_Some, negb_true_iff, bool_decide_eq_false in Hc. split; [exact Hc | ].
  clear Hc. apply mapM_Some in Hm.
  induction Hm as [ | x a xs l'' Hx _ IH]; [apply Forall_nil_2 | ].
  apply Forall_cons. split; [apply (HP x a Hx) | exact IH].
Qed.

(** X11. Arguments that pass the [createExpense] schema have a positive
    amount, at least one payer and at least one profiteer; every payer has a
    positive amount, every profiteer a share above 0 and at most 1, and each
    of them a non-empty [userId] or a non-empty [name]. *)
Theorem CreateExpenseInput_accepted raw args :
  CreateExpenseInput_parse raw = Some args ->
  Num.gtb (ce_amount args) Num.zero = true
  /\ ce_payers args ≠ [] /\ ce_profiteers args ≠ []
  /\ Forall (fun p => Num.gtb (p_amount p) Num.zero = true
                      /\ (truthy_opt (p_userId p) = true \/ truthy_opt (p_name p) = true))
            (ce_payers args)
  /\ Forall (fun p => Num.gtb (q_share p) Num.zero = true
                      /\ Num.leb (q_share p) Num.one = true
                      /\ (truthy_opt (q_userId p) = true \/ truthy_opt (q_name p) = true))
            (ce_profiteers args).
Proof.
  unfold CreateExpenseInput_parse. intros H.
  apply bind_Some in H. destruct H as (_ & _ & H).
  apply bind_Some in H. destruct H as (groupId & _ & H).
  apply bind_Some in H. destruct H as (groupCode & _ & H).
  apply bind_Some in H. destruct H as (groupName & _ & H).
  apply bind_Some in H. destruct H as (title & _ & H).
  apply bind_Some in H. destruct H as (amount & Ha & H).
  apply bind_Some in H. destruct H as (currencyCode & _ & H).
  apply bind_Some in H. destruct H as (payers & Hp & H).
  apply bind_Some in H. destruct H as (profiteers & Hq & H).
  injection H as <-. cbn [ce_amount ce_payers ce_profiteers].
  apply z_positive_Some in Ha.
  apply (z_array_min1_Some _ _ _ _ PayerLoose_parse_Some) in Hp.
  apply (z_array_min1_Some _ _ _ _ ProfiteerLoose_parse_Some) in Hq.
  tauto.
Qed.

Lemma CreateExpenseInput_accepted_witness :
  let args := Sample.args_by_names in
  Num.gtb (ce_amount args) Num.zero = true
  /\ ce_payers args ≠ [] /\ ce_profiteers args ≠ []
  /\ Forall (fun p => Num.gtb (p_amount p) Num.zero = true
                      /\ (truthy_opt (p_userId p) = true \/ truthy_opt (p_name p) = true))
            (ce_payers args)
  /\ Forall (fun p => Num.gtb (q_share p) Num.zero = true
                      /\ Num.leb (q_share p) Num.one = true
                      /\ (truthy_opt (q_userId p) = true \/ truthy_opt (q_name p) = true))
            (ce_profiteers args).
Proof.
  apply (CreateExpenseInput_accepted (Example.raw_by_names "Dinner") Sample.args_by_names).
  vm_compute. reflexivity.
Defined.

End SchemaMore.

Module LimitMore.
Import Mcp Sample.

(** X12. Every integer from 1 to 100 is accepted as [limit]; 0 and 101
    are rejected, and so is 1.5. *)
Theorem limit_integers_accepted :
  (forall k, 1 <= k <= 100 ->
     z_limit (VNum (number_of_Z k)) = Some (number_of_Z k)
     /\ (Num.to_Q (number_of_Z k) == inject_Z k)%Q)
  /\ z_limit (VNum (number_of_Z 0)) = None
  /\ z_limit (VNum (number_of_Z 101)) = None
  /\ z_limit (VNum (S754_finite false 6755399441055744 (-52))) = None.
Proof.
  split; [ | vm_compute; auto].
  assert (Hall : forallb limit_accepted (Z.of_nat <$> seq 1 100) = true)
    by (vm_compute; reflexivity).
  intros k Hk. rewrite forallb_forall in Hall.
  assert (Hin : In k (Z.of_nat <$> seq 1 100)).
  { apply list_elem_of_In, list_elem_of_fmap. exists (Z.to_nat k). split; [lia | ].
    apply list_elem_of_In, in_seq. lia. }
  specialize (Hall k Hin). unfold limit_accepted in Hall.
  destruct (z_limit (VNum (number_of_Z k))) as [n | ] eqn:E; [ | discriminate].
  pose proof (McpFacts.z_limit_Some _ _ E) as (Hn & _). injection Hn as Hn. subst n.
  split; [reflexivity | apply Qeq_bool_iff, Hall].
Qed.

End LimitMore.

(** ** The server functions and the sessions *)

Module ServerMore.
Import Mcp.

Section Api.

Variable CODE : string.

(** X13. Resolving a group by invite code is the default-group lookup
    of a server configured with that code: the same calls, the same
    result. In particular [groupCode = CODE] selects the default group. *)
Theorem resolveGroup_by_code_is_default_lookup gid c name :
  truthy_opt gid = false -> c ≠ "" ->
  Server.resolveGroup CODE (Build_GroupSelector gid (Some c) name)
  = Server.getDefaultGroup c.
Proof.
  intros Hgid Hc. unfold Server.resolveGroup. cbn [groupId groupCode].
  rewrite Hgid, (truthy_opt_Some c Hc). reflexivity.
Qed.

(** X14. The summary always reads the members, then the entries from
    offset 0 with limit 100, then the group metadata, before it looks at any
    of the three answers. When these reads resolve, a missing (nullish)
    answer or a missing [result] of the members or of the entries throws a
    [TypeError] and no balance is computed; otherwise the balance is
    computed from [members.result.results], [entries.result.results] and
    [groupInfo.result], and the result is [{ balance }]. *)
Theorem getGroupSummary_reads groupId members entries groupInfo w log :
  let log1 := log ++ [PersonGetByGroup groupId] in
  let log2 := log1 ++ [EntryGetByGroup groupId Num.zero Num.lit_100] in
  let log3 := log2 ++ [GroupInfoGetOneByGroup groupId] in
  w log (PersonGetByGroup groupId) = Resolve members ->
  w log1 (EntryGetByGroup groupId Num.zero Num.lit_100) = Resolve entries ->
  w log2 (GroupInfoGetOneByGroup groupId) = Resolve groupInfo ->
  Server.getGroupSummary groupId w log
  = if nullish members || nullish (get members "result")
       || nullish entries || nullish (get entries "result") || nullish groupInfo
    then (log3, Throw TypeError)
    else
      let balance := GetBalance (get (get members "result") "results")
                       (get (get entries "result") "results") (get groupInfo "result") in
      (log3 ++ [balance],
       match w log3 balance with
       | Resolve b => Ok (VObj [("balance", b)])
       | Reject e => Throw e
       end).
Proof.
  intros log1 log2 log3 Hm He Hi.
  unfold Server.getGroupSummary, mbind, M_bind, perform.
  rewrite Hm. fold log1. rewrite He. fold log2. rewrite Hi. fold log3.
  unfold prop. destruct (nullish members); [reflexivity | ].
  cbn [mret M_ret throw orb].
  destruct (nullish (get members "result")); [reflexivity | ].
  cbn [mret M_ret throw orb]. destruct (nullish entries); [reflexivity | ].
  cbn [mret M_ret throw orb]. destruct (nullish (get entries "result")); [reflexivity | ].
  cbn [mret M_ret throw orb]. destruct (nullish groupInfo); [reflexivity | ].
  cbn [mret M_ret throw orb]. cbv zeta.
  match goal with |- context [w log3 ?c] => destruct (w log3 c) end; reflexivity.
Qed.

Variable JSON_stringify : value -> value.

(** X15. Once the arguments are accepted and the group is resolved,
    [listEntries] returns what the service answers, serialized as it is,
    and throws what the service rejects with; it makes no other call. *)
Theorem listEntries_answer raw args group w log log1 :
  ListEntriesInput_parse raw = Some args ->
  select_group (Server.splidApi CODE) (le_groupId args) (le_groupCode args)
    (le_groupName args) w log = (log1, Ok group) ->
  let fetch := EntryGetByGroup (id group) Num.zero (default Num.lit_20 (le_limit args)) in
  tool_listEntries JSON_stringify (Server.splidApi CODE) raw w log
  = (log1 ++ [fetch],
     Completed match w log1 fetch with
               | Resolve entries => Ok (text_result (JSON_stringify entries))
               | Reject e => Throw e
               end).
Proof.
  intros Hp Hsel fetch. unfold tool_listEntries, registerTool. rewrite Hp.
  unfold listEntries_handler. rewrite (bind_ok _ _ _ _ _ _ Hsel).
  unfold listEntries_in_group, mbind, M_bind.
  cbn [listEntries Server.splidApi]. unfold Server.listEntries, perform.
  cbn [from_option Datatypes.id]. fold fetch. destruct (w log1 fetch); reflexivity.
Qed.

End Api.

Lemma resolveGroup_by_code_is_default_lookup_witness :
  Server.resolveGroup "CODE" (Build_GroupSelector None (Some "OTHER") (Some "Trip"))
  = Server.getDefaultGroup "OTHER".
Proof.
  apply (resolveGroup_by_code_is_default_lookup "CODE" None "OTHER" (Some "Trip")).
  - reflexivity.
  - discriminate.
Defined.

Lemma getGroupSummary_reads_witness :
  Server.getGroupSummary (VStr "g1") Example.service []
  = ([PersonGetByGroup (VStr "g1");
      EntryGetByGroup (VStr "g1") Num.zero Num.lit_100;
      GroupInfoGetOneByGroup (VStr "g1");
      GetBalance (VArr [Example.alice; Example.bob]) (VArr []) VUndefined],
     Ok (VObj [("balance", VObj [])])).
Proof.
  rewrite (getGroupSummary_reads (VStr "g1") Sample.the_listing
             (VObj [("result", VObj [("results", VArr [])])])
             (VObj [("defaultCurrencyCode", VStr "EUR")]) Example.service []).
  - reflexivity.
  - reflexivity.
  - reflexivity.
  - reflexivity.
Defined.

Lemma listEntries_answer_witness :
  tool_listEntries Example.stringify (Server.splidApi "CODE")
    (VObj [("limit", VNum Num.lit_100)]) Example.service []
  = ([GroupGetByInviteCode "CODE"; GroupInfoGetOneByGroup (VStr "g1");
      EntryGetByGroup (VStr "g1") Num.zero Num.lit_100],
     Completed (Ok (text_result
                      (Example.stringify (VObj [("result", VObj [("results", VArr [])])]))))).
Proof.
  rewrite (listEntries_answer "CODE" Example.stringify (VObj [("limit", VNum Num.lit_100)])
             {| le_limit := Some Num.lit_100; le_groupId := None; le_groupCode := None;
                le_groupName := None |}
             Sample.the_group Example.service []
             [GroupGetByInviteCode "CODE"; GroupInfoGetOneByGroup (VStr "g1")]).
  - reflexivity.
  - vm_compute. reflexivity.
  - reflexivity.
Defined.

End ServerMore.

Module SessionMore.
Import Session SessionFacts.

Section Endpoints.

Variable isInitializeRequest : value -> bool.
Variable initializes : request -> bool.

Abbreviation post := (Session.post_mcp isInitializeRequest initializes).
Abbreviation steps := (Session.run isInitializeRequest initializes).


(** What holds of every session map the server reaches. *)
Lemma post_keeps_uuid_keys transports req fresh :
  (forall k t, transports !! k = Some t -> is_uuid k = true /\ sessionId t = Some k) ->
  forall k t, (post transports req fresh).1 !! k = Some t ->
    is_uuid k = true /\ sessionId t = Some k.
Proof.
  intros Hinv k t. unfold Session.post_mcp.
  destruct (truthy_opt (session_header req)).
  - destruct (dict_get transports _); apply Hinv.
  - destruct (negb (isInitializeRequest (body req))); [apply Hinv | ].
    destruct (initializes req); [ | apply Hinv]. cbn [fst].
    destruct (decide (uuid_str fresh = k)) as [<- | Hne].
    + rewrite lookup_insert_eq. intros [= <-]. split; [apply uuid_ok | reflexivity].
    + rewrite lookup_insert_ne by exact Hne. apply Hinv.
Qed.

Lemma onclose_keeps_uuid_keys (transports : gmap string transport) t0 :
  (forall k t, transports !! k = Some t -> is_uuid k = true /\ sessionId t = Some k) ->
  forall k t, onclose transports t0 !! k = Some t ->
    is_uuid k = true /\ sessionId t = Some k.
Proof.
  intros Hinv k t. unfold onclose. destruct (sessionId t0) as [sid | ]; [ | apply Hinv].
  destruct (truthy (VStr sid) && _); [ | apply Hinv].
  intros H. apply lookup_delete_Some in H. apply Hinv, H.
Qed.

Lemma run_keeps_uuid_keys evs : forall transports,
  (forall k t, transports !! k = Some t -> is_uuid k = true /\ sessionId t = Some k) ->
  forall k t, (steps transports evs).1 !! k = Some t ->
    is_uuid k = true /\ sessionId t = Some k.
Proof.
  induction evs as [ | ev evs IH]; intros transports Hinv k t; cbn [Session.run].
  - apply Hinv.
  - destruct (Session.step _ _ transports ev) as [t' r] eqn:Es.
    specialize (IH t'). destruct (Session.run _ _ t' evs) as [t'' rs]. cbn [fst] in *.
    apply IH. destruct ev as [req fresh | req | req | t0]; cbn [Session.step] in Es.
    + pose proof (post_keeps_uuid_keys transports req fresh Hinv) as H.
      destruct (Session.post_mcp _ _ transports req fresh). injection Es as <- _. exact H.
    + injection Es as <- _. exact Hinv.
    + injection Es as <- _. exact Hinv.
    + injection Es as <- _. apply onclose_keeps_uuid_keys, Hinv.
Qed.

(** X17. Starting from the empty map, after any sequence of requests
    and channel closures, every key of the session map is an identifier that
    [randomUUID] returned and the transport stored under it has that
    identifier as its [sessionId]. *)
Theorem session_map_invariant evs k t :
  (steps ∅ evs).1 !! k = Some t -> is_uuid k = true /\ sessionId t = Some k.
Proof.
  apply run_keeps_uuid_keys. intros k' t' H. rewrite lookup_empty in H. discriminate H.
Qed.


(** X19. The closure of a channel touches no other session: every
    other identifier keeps its transport, and the closure of a transport
    that never initialized a session changes nothing. *)
Theorem onclose_leaves_other_sessions (transports : gmap string transport) t :
  (forall k, sessionId t ≠ Some k -> onclose transports t !! k = transports !! k)
  /\ (sessionId t = None -> onclose transports t = transports).
Proof.
  split.
  - intros k Hk. unfold onclose. destruct (sessionId t) as [sid | ]; [ | reflexivity].
    destruct (truthy (VStr sid) && _); [ | reflexivity].
    apply lookup_delete_ne. intros ->. apply Hk. reflexivity.
  - intros Hn. unfold onclose. rewrite Hn. reflexivity.
Qed.

(** X20. A request whose identifier is not a key of the session map
    but names a member of [Object.prototype] is not rejected as an invalid
    session: a POST is answered 500 and a GET or DELETE handler throws a
    [TypeError] that nothing catches. The map is not changed. *)
Theorem prototype_identifier_requests transports req fresh k :
  session_header req = Some k -> transports !! k = None -> inherited k = true ->
  post transports req fresh = (transports, Json 500 internal_error)
  /\ get_or_delete_mcp transports req = Uncaught TypeError.
Proof.
  intros Hh Hn Hp.
  assert (Hk : truthy_opt (Some k) = true).
  { apply truthy_opt_Some. intros ->. discriminate Hp. }
  unfold Session.post_mcp, get_or_delete_mcp. rewrite Hh, Hk.
  cbn [negb from_option Datatypes.id]. unfold dict_get. rewrite Hn, Hp. split; reflexivity.
Qed.

End Endpoints.


Lemma session_map_invariant_witness :
  is_uuid Example.a_uuid = true
  /\ sessionId {| sessionId := Some Example.a_uuid |} = Some Example.a_uuid.
Proof.
  apply (session_map_invariant (fun _ => true) (fun _ => true)
           [PostMcp Sample.initialize_request Example.the_uuid]).
  vm_compute. reflexivity.
Defined.

Lemma prototype_identifier_requests_witness :
  let req := {| session_header := Some "toString"; body := VNull |} in
  Session.post_mcp (fun _ => true) (fun _ => true) ∅ req Example.the_uuid
  = (∅, Json 500 internal_error)
  /\ get_or_delete_mcp ∅ req = Uncaught TypeError.
Proof.
  apply (prototype_identifier_requests (fun _ => true) (fun _ => true) ∅
           {| session_header := Some "toString"; body := VNull |} Example.the_uuid
           "toString").
  - reflexivity.
  - reflexivity.
  - reflexivity.
Defined.

End SessionMore.

(** ** The share-sum test *)

Module CheckMore.
Import Mcp.

(** X21. On every binary64 value the test [Math.abs(sum - 1) > epsilon]
    is true exactly when the value is a number whose exact value lies
    outside [[1 - 10^-6, 1 + 10^-6]]: neither the rounding of [sum - 1] nor
    that of the literal [1e-6] moves the boundary. NaN is the one value
    outside the interval on which the test is false. *)
Theorem share_sum_off_iff_outside sum :
  Num.valid sum = true ->
  share_sum_off sum = true <-> Num.is_nan sum = false /\ ~ Num.in_band (Num.to_Q sum).
Proof.
  intros Hv. unfold share_sum_off, epsilon.
  destruct (Num.is_nan sum) eqn:En.
  - destruct sum; try discriminate En. split; [discriminate | intros [H _]; discriminate H].
  - pose proof (NumFacts.gtb_eps_iff_band sum Hv En) as Hband.
    destruct (Num.gtb (Num.abs (Num.sub sum Num.one)) Num.lit_1e_6).
    + split; [ | reflexivity]. intros _. split; [reflexivity | ].
      intros Hin. apply Hband in Hin. discriminate Hin.
    + split; [discriminate | ]. intros [_ Hout]. exfalso. apply Hout, Hband. reflexivity.
Qed.

(** X22. For arguments that pass the schema, with shares that are
    binary64 values, the computed sum of the shares is [+0], a positive
    number or [+Infinity]: it is never NaN and never negative, so that the
    share-sum test cannot be passed through a NaN. *)
Theorem share_sum_is_a_number raw args :
  CreateExpenseInput_parse raw = Some args ->
  Forall (fun p => Num.valid (q_share p) = true) (ce_profiteers args) ->
  let sum := share_sum (ce_profiteers args) in
  Num.is_nan sum = false /\ Num.valid sum = true /\ Num.ltb sum Num.zero = false.
Proof.
  intros Hp Hv sum.
  pose proof (McpFacts.share_sum_nonneg_sum _ Hv (McpFacts.CreateExpenseInput_parse_shares _ _ Hp))
    as Hs. fold sum in Hs.
  destruct (NumFacts.nonneg_sum_valid _ Hs) as [H1 H2]. split; [exact H2 | ].
  split; [exact H1 | ]. destruct sum as [[] | [] | | [] m e]; try contradiction; reflexivity.
Qed.

Lemma share_sum_off_iff_outside_witness :
  share_sum_off Example.lit_0_9 = true
  <-> Num.is_nan Example.lit_0_9 = false /\ ~ Num.in_band (Num.to_Q Example.lit_0_9).
Proof.
  apply (share_sum_off_iff_outside Example.lit_0_9). reflexivity.
Defined.

Lemma share_sum_is_a_number_witness :
  let sum := share_sum (ce_profiteers Sample.args_by_names) in
  Num.is_nan sum = false /\ Num.valid sum = true /\ Num.ltb sum Num.zero = false.
Proof.
  apply (share_sum_is_a_number (Example.raw_by_names "Dinner") Sample.args_by_names).
  - vm_compute. reflexivity.
  - apply List.Forall_cons; [reflexivity | ].
    apply List.Forall_cons; [reflexivity | apply List.Forall_nil].
Defined.

End CheckMore.

(** ** The group of a call, end to end *)

Module GroupMore.
Import Mcp.

Lemma prop_Ok v k w log log' r :
  prop v k w log = (log', Ok r) -> log' = log /\ nullish v = false /\ r = get v k.
Proof.
  unfold prop. destruct (nullish v); [discriminate | ]. intros [= <- <-]. auto.
Qed.

Lemma perform_Ok c w log log' r :
  perform c w log = (log', Ok r) -> log' = log ++ [c] /\ w log c = Resolve r.
Proof.
  unfold perform. destruct (w log c) as [v | e]; [ | discriminate]. intros [= <- <-]. auto.
Qed.

Lemma lookup_by_code_Ok c w log log' g :
  Server.getDefaultGroup c w log = (log', Ok g) ->
  exists joined info,
    w log (GroupGetByInviteCode c) = Resolve joined
    /\ nullish joined = false /\ nullish (get joined "result") = false
    /\ id g = get (get joined "result") "objectId"
    /\ log' = log ++ [GroupGetByInviteCode c; GroupInfoGetOneByGroup (id g)]
    /\ w (log ++ [GroupGetByInviteCode c]) (GroupInfoGetOneByGroup (id g)) = Resolve info
    /\ nullish info = false
    /\ currencyCode g = get info "defaultCurrencyCode".
Proof.
  unfold Server.getDefaultGroup. intros H.
  apply ExpenseMore.bind_Ok_inv in H. destruct H as (l1 & joined & H1 & H).
  apply ExpenseMore.bind_Ok_inv in H. destruct H as (l2 & result & H2 & H).
  apply ExpenseMore.bind_Ok_inv in H. destruct H as (l3 & groupId & H3 & H).
  apply ExpenseMore.bind_Ok_inv in H. destruct H as (l4 & info & H4 & H).
  apply ExpenseMore.bind_Ok_inv in H. destruct H as (l5 & cc & H5 & H).
  injection H as <- <-. cbn [id currencyCode].
  apply perform_Ok in H1. destruct H1 as [-> H1].
  apply prop_Ok in H2. destruct H2 as (-> & H2 & ->).
  apply prop_Ok in H3. destruct H3 as (-> & H3 & ->).
  apply perform_Ok in H4. destruct H4 as [-> H4].
  apply prop_Ok in H5. destruct H5 as (-> & H5 & ->).
  exists joined, info. rewrite <- app_assoc. cbn [app]. auto 10.
Qed.

Section Group.

Variable CODE : string.

(** X23. Every group a tool works on has been looked up on this
    invocation: when the selection returns a group, the last call made was
    the request for the metadata of that very group, the service answered
    it, and the currency of the group is the [defaultCurrencyCode] of that
    answer. A group given by [groupId] costs this one call; a group given
    by code, or the default group, costs the join before it, and its
    identifier is the [result.objectId] of the join. *)
Theorem selected_group_was_looked_up gid code name w log log' g :
  select_group (Server.splidApi CODE) gid code name w log = (log', Ok g) ->
  exists pre info,
    log' = pre ++ [GroupInfoGetOneByGroup (id g)]
    /\ w pre (GroupInfoGetOneByGroup (id g)) = Resolve info
    /\ nullish info = false
    /\ currencyCode g = get info "defaultCurrencyCode"
    /\ (if truthy_opt gid
        then pre = log /\ id g = of_opt gid
        else exists joined,
               pre = log ++ [GroupGetByInviteCode
                               (if truthy_opt code then default "" code else CODE)]
               /\ w log (GroupGetByInviteCode
                           (if truthy_opt code then default "" code else CODE))
                  = Resolve joined
               /\ id g = get (get joined "result") "objectId").
Proof.
  intros H.
  assert (Hcode : forall c, Server.getDefaultGroup c w log = (log', Ok g) ->
            exists pre info,
              log' = pre ++ [GroupInfoGetOneByGroup (id g)]
              /\ w pre (GroupInfoGetOneByGroup (id g)) = Resolve info
              /\ nullish info = false
              /\ currencyCode g = get info "defaultCurrencyCode"
              /\ exists joined,
                   pre = log ++ [GroupGetByInviteCode c]
                   /\ w log (GroupGetByInviteCode c) = Resolve joined
                   /\ id g = get (get joined "result") "objectId").
  { intros c Hc. apply lookup_by_code_Ok in Hc.
    destruct Hc as (joined & info & H1 & _ & _ & H2 & -> & H3 & H4 & H5).
    exists (log ++ [GroupGetByInviteCode c]), info.
    rewrite <- app_assoc. cbn [app]. eauto 10. }
  unfold select_group in H. cbn [resolveGroup getDefaultGroup Server.splidApi] in H.
  unfold Server.resolveGroup in H. cbn [groupId groupCode groupName] in H.
  destruct (truthy_opt gid) eqn:Eg.
  - cbn [orb] in H.
    apply ExpenseMore.bind_Ok_inv in H. destruct H as (l1 & info & H1 & H).
    apply ExpenseMore.bind_Ok_inv in H. destruct H as (l2 & cc & H2 & H).
    injection H as <- <-. cbn [id currencyCode].
    apply perform_Ok in H1. destruct H1 as [-> H1].
    apply prop_Ok in H2. destruct H2 as (-> & H2 & ->).
    exists log, info. repeat split; auto.
  - destruct (truthy_opt code) eqn:Ec.
    + cbn [orb] in H. apply Hcode in H. exact H.
    + destruct (truthy_opt name) eqn:En; cbn [orb] in H.
      * discriminate H.
      * apply Hcode in H. exact H.
Qed.

Variable JSON_stringify : value -> value.

(** X24. When [whoami] returns, it made three calls: the join with
    [CODE], the request for the metadata of the group joined and the
    listing of the members of that same group; its text is the
    serialization of [{ group: { id, currencyCode }, members }] with the
    answers of the last two. The result is not flagged as an error. *)
Theorem whoami_answer w log log' r :
  whoami JSON_stringify (Server.splidApi CODE) w log = (log', Ok r) ->
  exists joined info members,
    let gid := get (get joined "result") "objectId" in
    log' = log ++ [GroupGetByInviteCode CODE; GroupInfoGetOneByGroup gid;
                   PersonGetByGroup gid]
    /\ w log (GroupGetByInviteCode CODE) = Resolve joined
    /\ w (log ++ [GroupGetByInviteCode CODE]) (GroupInfoGetOneByGroup gid) = Resolve info
    /\ w (log ++ [GroupGetByInviteCode CODE; GroupInfoGetOneByGroup gid])
         (PersonGetByGroup gid) = Resolve members
    /\ r = text_result
             (JSON_stringify
                (VObj [("group", VObj [("id", gid);
                                       ("currencyCode", get info "defaultCurrencyCode")]);
                       ("members", members)])).
Proof.
  unfold whoami. cbn [getDefaultGroup listMembers Server.splidApi]. intros H.
  apply ExpenseMore.bind_Ok_inv in H. destruct H as (l1 & g & H1 & H).
  apply ExpenseMore.bind_Ok_inv in H. destruct H as (l2 & members & H2 & H).
  injection H as <- <-.
  apply lookup_by_code_Ok in H1.
  destruct H1 as (joined & info & Hj & _ & _ & Hid & -> & Hi & _ & Hcc).
  apply perform_Ok in H2. destruct H2 as [-> H2].
  exists joined, info, members. cbv zeta. rewrite <- Hid, <- Hcc.
  rewrite <- app_assoc. cbn [app]. auto.
Qed.

Variable toLowerCase : string -> string.
Variable Number_toString : number -> string.

(** X25. A [createExpense] call that passes the schema and the
    share-sum test and gives a non-empty [userId] for every payer and every
    profiteer sends the service, once the group is resolved, one request and
    nothing else: the creation of the expense, with the payers and the
    profiteers in the order given, each under the [userId] given. The tool
    returns the serialized answer of the service, or throws what the service
    rejects with. *)
Theorem createExpense_by_ids_request raw args group w log log1 :
  CreateExpenseInput_parse raw = Some args ->
  select_group (Server.splidApi CODE) (ce_groupId args) (ce_groupCode args)
    (ce_groupName args) w log = (log1, Ok group) ->
  share_sum_off (share_sum (ce_profiteers args)) = false ->
  Forall (fun p => truthy_opt (p_userId p) = true) (ce_payers args) ->
  Forall (fun p => truthy_opt (q_userId p) = true) (ce_profiteers args) ->
  let request :=
    EntryExpenseCreate
      {| o_groupId := id group;
         o_title := ce_title args;
         o_payers := (fun p => (Own (default "" (p_userId p)), p_amount p)) <$> ce_payers args;
         o_currencyCode :=
           match ce_currencyCode args with
           | Some c => VStr c
           | None => if nullish (currencyCode group) then VStr "EUR" else currencyCode group
           end |}
      {| i_amount := ce_amount args;
         i_profiteers :=
           (fun p => (Own (default "" (q_userId p)), q_share p)) <$> ce_profiteers args |} in
  tool_createExpense toLowerCase Number_toString JSON_stringify (Server.splidApi CODE) raw
    w log
  = (log1 ++ [request],
     Completed match w log1 request with
               | Resolve answer => Ok (text_result (JSON_stringify answer))
               | Reject e => Throw e
               end).
Proof.
  intros Hparse Hsel Hoff Hp Hq request.
  unfold tool_createExpense, registerTool. rewrite Hparse.
  unfold createExpense_handler. rewrite (bind_ok _ _ _ _ _ _ Hsel).
  unfold createExpense_in_group. rewrite Hoff. unfold createExpense_checked.
  rewrite (ExpenseMore.missing_names_nil _ _ _ Hp), (ExpenseMore.missing_names_nil _ _ _ Hq).
  cbn [app]. change (dedupe []) with (@nil string).
  rewrite bool_decide_eq_true_2 by reflexivity.
  unfold mbind at 1, M_bind at 1. cbn [mret M_ret].
  destruct (ExpenseMore.normalize_with_userId p_userId p_name p_amount ∅ _ Hp) as [-> ->].
  destruct (ExpenseMore.normalize_with_userId q_userId q_name q_share ∅ _ Hq) as [-> ->].
  cbn [orb]. unfold mbind, M_bind. cbn [createExpense Server.splidApi].
  unfold Server.createExpense, perform.
  cbn [e_groupId e_title e_amount e_currencyCode e_payers e_profiteers].
  assert (Hc : coalesce (coalesce (of_opt (ce_currencyCode args)) (currencyCode group))
                 (VStr "EUR")
               = match ce_currencyCode args with
                 | Some c => VStr c
                 | None => if nullish (currencyCode group) then VStr "EUR"
                           else currencyCode group
                 end).
  { destruct (ce_currencyCode args) as [c | ]; [reflexivity | ].
    cbn [of_opt]. unfold coalesce. cbn [nullish].
    destruct (nullish (currencyCode group)); reflexivity. }
  rewrite Hc. fold request. destruct (w log1 request); reflexivity.
Qed.

End Group.

Lemma selected_group_was_looked_up_witness :
  exists pre info,
    [GroupGetByInviteCode "CODE"; GroupInfoGetOneByGroup (VStr "g1")]
    = pre ++ [GroupInfoGetOneByGroup (id Sample.the_group)]
    /\ Example.service pre (GroupInfoGetOneByGroup (id Sample.the_group)) = Resolve info
    /\ nullish info = false
    /\ currencyCode Sample.the_group = get info "defaultCurrencyCode"
    /\ exists joined,
         pre = [] ++ [GroupGetByInviteCode "CODE"]
         /\ Example.service [] (GroupGetByInviteCode "CODE") = Resolve joined
         /\ id Sample.the_group = get (get joined "result") "objectId".
Proof.
  apply (selected_group_was_looked_up "CODE" None None None Example.service []
           [GroupGetByInviteCode "CODE"; GroupInfoGetOneByGroup (VStr "g1")]
           Sample.the_group).
  reflexivity.
Defined.

Lemma whoami_answer_witness :
  exists joined info members,
    let gid := get (get joined "result") "objectId" in
    [GroupGetByInviteCode "CODE"; GroupInfoGetOneByGroup (VStr "g1");
     PersonGetByGroup (VStr "g1")]
    = [] ++ [GroupGetByInviteCode "CODE"; GroupInfoGetOneByGroup gid; PersonGetByGroup gid]
    /\ Example.service [] (GroupGetByInviteCode "CODE") = Resolve joined
    /\ Example.service ([] ++ [GroupGetByInviteCode "CODE"]) (GroupInfoGetOneByGroup gid)
       = Resolve info
    /\ Example.service ([] ++ [GroupGetByInviteCode "CODE"; GroupInfoGetOneByGroup gid])
         (PersonGetByGroup gid) = Resolve members
    /\ text_result
         (Example.stringify
            (VObj [("group", VObj [("id", VStr "g1"); ("currencyCode", VStr "EUR")]);
                   ("members", Sample.the_listing)]))
       = text_result
           (Example.stringify
              (VObj [("group", VObj [("id", gid);
                                     ("currencyCode", get info "defaultCurrencyCode")]);
                     ("members", members)])).
Proof.
  apply (whoami_answer "CODE" Example.stringify Example.service []).
  reflexivity.
Defined.

Lemma createExpense_by_ids_request_witness :
  tool_createExpense Example.ascii_lower Example.number_repr Example.stringify
    (Server.splidApi "CODE")
    (VObj [("title", VStr "Dinner");
           ("amount", VNum Example.lit_12_5);
           ("payers", VArr [VObj [("userId", VStr "u1"); ("name", VStr "Alice");
                                  ("amount", VNum Example.lit_12_5)]]);
           ("profiteers",
            VArr [VObj [("userId", VStr "u2"); ("share", VNum Example.lit_0_6)];
                  VObj [("userId", VStr "u1"); ("share", VNum Example.lit_0_4)]])])
    Example.service []
  = ([GroupGetByInviteCode "CODE"; GroupInfoGetOneByGroup (VStr "g1");
      EntryExpenseCreate
        {| Client.o_groupId := VStr "g1"; Client.o_title := "Dinner";
           Client.o_payers := [(Own "u1", Example.lit_12_5)];
           Client.o_currencyCode := VStr "EUR" |}
        {| Client.i_amount := Example.lit_12_5;
           Client.i_profiteers := [(Own "u2", Example.lit_0_6);
                                   (Own "u1", Example.lit_0_4)] |}],
     Completed (Ok (text_result (Example.stringify (VObj [("created", VBool true)]))))).
Proof.
  rewrite (createExpense_by_ids_request "CODE" Example.stringify Example.ascii_lower
             Example.number_repr _ Sample.args_by_ids Sample.the_group Example.service []
             [GroupGetByInviteCode "CODE"; GroupInfoGetOneByGroup (VStr "g1")]).
  - reflexivity.
  - vm_compute. reflexivity.
  - reflexivity.
  - vm_compute. reflexivity.
  - apply List.Forall_cons; [reflexivity | apply List.Forall_nil].
  - apply List.Forall_cons; [reflexivity | ].
    apply List.Forall_cons; [reflexivity | apply List.Forall_nil].
Defined.

End GroupMore.
